(** * Desktop's layer for running git

    The module in the second part of
    [app/src/ui/branches/branch-select.tsx] (lines 138 to 695), which in
    Desktop is [app/src/lib/git/core.ts]: the class [GitError], the
    function [git], the describer [getDescriptionForError] and
    [parseConfigLockFilePathFromError]. The file embeds them as functions
    of Rocq and proves what the specification states about them; then,
    with the helpers the module exports beside them and the component
    [BranchSelect] of the first part of the source file, what else the
    code shows.

    Conventions of the embedding.
    - A JavaScript string is held as a [string] of the bytes of its UTF-8
      encoding; emptiness, equality, concatenation and search for ASCII
      text agree with the UTF-16 original.
    - A [number] that is an exit code is a [Z].
    - A [Set] is a [gset], an environment object a [gmap] from names to
      values.
    - What the module imports from the dugite package, from Node and
      from the trampoline, and the constants of the build, are the fields
      of the class [Imports]: every definition and every theorem holds
      for any of them. *)

From Stdlib Require Import ZArith Ascii String List Bool Lia.
From stdpp Require Import base decidable countable gmap strings list pretty.

Open Scope string_scope.
Open Scope list_scope.

(** ** JavaScript values the module handles *)

(** An optional property of an options object. Object spread copies a
    property that is present, also when its value is [undefined]; reading
    a property yields [undefined] in both of the first two cases. *)
Inductive property (A : Type) : Type :=
| Absent
| Undefined
| Present (a : A).
Arguments Absent {A}.
Arguments Undefined {A}.
Arguments Present {A} a.

(** [o.p]: the value read from a property, [None] standing for
    [undefined]. *)
Definition read {A} (p : property A) : option A :=
  match p with
  | Present a => Some a
  | Absent | Undefined => None
  end.

(** One property of [{ ...base, ...over }]. *)
Definition spread {A} (base over : property A) : property A :=
  match over with
  | Absent => base
  | Undefined | Present _ => over
  end.

(** [kStringMaxLength] is a finite number, [Infinity] is not. *)
Inductive number : Type :=
| Infinity
| Finite (n : N).

(** The [encoding] option: ['buffer'] or the name of a text encoding. *)
Inductive Encoding : Type :=
| buffer
| named (name : string).

(** What dugite hands back for stdout and stderr: a string, or a Buffer
    when the encoding is ['buffer']. *)
Inductive Output : Type :=
| Str (s : string)
| Buf (bytes : list ascii).

(** [value.length]: characters of a string, bytes of a Buffer. *)
Definition length_of (value : Output) : nat :=
  match value with
  | Str s => String.length s
  | Buf b => List.length b
  end.

(** Truthiness of a [length]. *)
Definition truthy_length (n : nat) : bool := negb (Nat.eqb n 0).

(** Truthiness of a [string | null]: [null] and the empty string are
    falsy. *)
Definition truthy (s : option string) : bool :=
  match s with
  | Some (String _ _) => true
  | Some EmptyString | None => false
  end.

(** [v !== null]. *)
Definition not_null {A} (v : option A) : bool :=
  match v with
  | Some _ => true
  | None => false
  end.

(** Environment objects. *)
Abbreviation Env := (gmap string string).

(** ** The error codes of dugite

    The enumeration [GitError] is declared in the dugite package (core.ts
    imports it as [DugiteError]); its members are the ones core.ts
    names. *)
Inductive DugiteError : Type :=
| SSHAuthenticationFailed
| SSHPermissionDenied
| HTTPSAuthenticationFailed
| BadConfigValue
| SSHKeyAuditUnverified
| RemoteDisconnection
| HostDown
| RebaseConflicts
| MergeConflicts
| HTTPSRepositoryNotFound
| SSHRepositoryNotFound
| PushNotFastForward
| BranchDeletionFailed
| DefaultBranchDeletionFailed
| RevertConflicts
| EmptyRebasePatch
| NoMatchingRemoteBranch
| NothingToCommit
| NoSubmoduleMapping
| SubmoduleRepositoryDoesNotExist
| InvalidSubmoduleSHA
| LocalPermissionDenied
| InvalidMerge
| InvalidRebase
| NonFastForwardMergeIntoEmptyHead
| PatchDoesNotApply
| BranchAlreadyExists
| BadRevision
| NotAGitRepository
| ProtectedBranchForcePush
| ProtectedBranchRequiresReview
| PushWithFileSizeExceedingLimit
| HexBranchNameRejected
| ForcePushRejected
| InvalidRefLength
| CannotMergeUnrelatedHistories
| PushWithPrivateEmail
| LFSAttributeDoesNotMatch
| ProtectedBranchDeleteRejected
| ProtectedBranchRequiredStatus
| BranchRenameFailed
| PathDoesNotExist
| InvalidObjectName
| OutsideRepository
| LockFileAlreadyExists
| NoMergeToAbort
| NoExistingRemoteBranch
| LocalChangesOverwritten
| UnresolvedConflicts
| ConfigLockFileAlreadyExists
| RemoteAlreadyExists
| TagAlreadyExists
| MergeWithLocalChanges
| RebaseWithLocalChanges
| GPGFailedToSignData
| ConflictModifyDeletedInBranch
| MergeCommitNoMainlineOption
| UnsafeDirectory
| PathExistsButNotInRef.

(** Every member, in the order above. *)
Definition all_errors : list DugiteError :=
  [ SSHAuthenticationFailed; SSHPermissionDenied; HTTPSAuthenticationFailed;
    BadConfigValue; SSHKeyAuditUnverified; RemoteDisconnection; HostDown;
    RebaseConflicts; MergeConflicts; HTTPSRepositoryNotFound;
    SSHRepositoryNotFound; PushNotFastForward; BranchDeletionFailed;
    DefaultBranchDeletionFailed; RevertConflicts; EmptyRebasePatch;
    NoMatchingRemoteBranch; NothingToCommit; NoSubmoduleMapping;
    SubmoduleRepositoryDoesNotExist; InvalidSubmoduleSHA;
    LocalPermissionDenied; InvalidMerge; InvalidRebase;
    NonFastForwardMergeIntoEmptyHead; PatchDoesNotApply; BranchAlreadyExists;
    BadRevision; NotAGitRepository; ProtectedBranchForcePush;
    ProtectedBranchRequiresReview; PushWithFileSizeExceedingLimit;
    HexBranchNameRejected; ForcePushRejected; InvalidRefLength;
    CannotMergeUnrelatedHistories; PushWithPrivateEmail;
    LFSAttributeDoesNotMatch; ProtectedBranchDeleteRejected;
    ProtectedBranchRequiredStatus; BranchRenameFailed; PathDoesNotExist;
    InvalidObjectName; OutsideRepository; LockFileAlreadyExists;
    NoMergeToAbort; NoExistingRemoteBranch; LocalChangesOverwritten;
    UnresolvedConflicts; ConfigLockFileAlreadyExists; RemoteAlreadyExists;
    TagAlreadyExists; MergeWithLocalChanges; RebaseWithLocalChanges;
    GPGFailedToSignData; ConflictModifyDeletedInBranch;
    MergeCommitNoMainlineOption; UnsafeDirectory; PathExistsButNotInRef ].

(** Position of a member in [all_errors]: a key for sets of error codes
    (it is not dugite's numbering, which core.ts never relies on). *)
Definition error_key (e : DugiteError) : nat :=
  match e with
  | SSHAuthenticationFailed => 0 | SSHPermissionDenied => 1
  | HTTPSAuthenticationFailed => 2 | BadConfigValue => 3
  | SSHKeyAuditUnverified => 4 | RemoteDisconnection => 5 | HostDown => 6
  | RebaseConflicts => 7 | MergeConflicts => 8
  | HTTPSRepositoryNotFound => 9 | SSHRepositoryNotFound => 10
  | PushNotFastForward => 11 | BranchDeletionFailed => 12
  | DefaultBranchDeletionFailed => 13 | RevertConflicts => 14
  | EmptyRebasePatch => 15 | NoMatchingRemoteBranch => 16
  | NothingToCommit => 17 | NoSubmoduleMapping => 18
  | SubmoduleRepositoryDoesNotExist => 19 | InvalidSubmoduleSHA => 20
  | LocalPermissionDenied => 21 | InvalidMerge => 22 | InvalidRebase => 23
  | NonFastForwardMergeIntoEmptyHead => 24 | PatchDoesNotApply => 25
  | BranchAlreadyExists => 26 | BadRevision => 27 | NotAGitRepository => 28
  | ProtectedBranchForcePush => 29 | ProtectedBranchRequiresReview => 30
  | PushWithFileSizeExceedingLimit => 31 | HexBranchNameRejected => 32
  | ForcePushRejected => 33 | InvalidRefLength => 34
  | CannotMergeUnrelatedHistories => 35 | PushWithPrivateEmail => 36
  | LFSAttributeDoesNotMatch => 37 | ProtectedBranchDeleteRejected => 38
  | ProtectedBranchRequiredStatus => 39 | BranchRenameFailed => 40
  | PathDoesNotExist => 41 | InvalidObjectName => 42
  | OutsideRepository => 43 | LockFileAlreadyExists => 44
  | NoMergeToAbort => 45 | NoExistingRemoteBranch => 46
  | LocalChangesOverwritten => 47 | UnresolvedConflicts => 48
  | ConfigLockFileAlreadyExists => 49 | RemoteAlreadyExists => 50
  | TagAlreadyExists => 51 | MergeWithLocalChanges => 52
  | RebaseWithLocalChanges => 53 | GPGFailedToSignData => 54
  | ConflictModifyDeletedInBranch => 55 | MergeCommitNoMainlineOption => 56
  | UnsafeDirectory => 57 | PathExistsButNotInRef => 58
  end.

Lemma error_key_lookup (e : DugiteError) : all_errors !! error_key e = Some e.
Proof. destruct e; reflexivity. Qed.

Lemma error_key_inj (e1 e2 : DugiteError) : error_key e1 = error_key e2 -> e1 = e2.
Proof.
  intros Hkey.
  pose proof (error_key_lookup e1) as H1.
  pose proof (error_key_lookup e2) as H2.
  rewrite Hkey in H1. congruence.
Qed.

#[global] Instance DugiteError_eq_dec : EqDecision DugiteError.
Proof.
  intros e1 e2. destruct (decide (error_key e1 = error_key e2)) as [Heq | Hne].
  - left. exact (error_key_inj e1 e2 Heq).
  - right. intros ->. exact (Hne eq_refl).
Defined.

#[global] Instance DugiteError_countable : Countable DugiteError :=
  inj_countable error_key (fun n => all_errors !! n) error_key_lookup.

(** ** Results and errors *)

(** dugite's [IGitResult]: what [exec] resolves with. *)
Record DugiteResult : Type := {
  dugite_stdout : Output;
  dugite_stderr : Output;
  dugite_exitCode : Z
}.

(** [IGitResult]: dugite's result with the parsed error, its description
    and the path the command ran from. *)
Record IGitResult : Type := {
  stdout : Output;
  stderr : Output;
  exitCode : Z;
  gitError : option DugiteError;
  gitErrorDescription : option string;
  path : string
}.

(** The fields of a [GitError] beyond the constant [name = 'GitError']. *)
Record GitError : Type := {
  message : string;
  result : IGitResult;
  args : list string;
  isRawMessage : bool
}.

(** The errors [exec] rejects with, as the [catch] handler of [git] tells
    them apart: an exception thrown by Node.js itself, "as opposed to
    dugite" in the words of the handler, which [isErrnoException] accepts
    and whose errno [code] the handler reads; an [ExecError] of dugite,
    which holds the output collected so far, wraps the error of Node as
    its [cause], when it has one, and has the [code] of that error, when
    that is a string; anything else. *)
Inductive ExecRejection : Type :=
| ErrnoException (code : string)
| DugiteExecError (code : option string) (message : string) (out err : Output)
    (cause : option string)
| OtherRejection (message : string).

(** [isMaxBufferExceededError]: an [ExecError] with the code Node gives
    to output beyond [maxBuffer]. *)
Definition isMaxBufferExceededError (error : ExecRejection) : bool :=
  match error with
  | DugiteExecError (Some code) _ _ _ _ =>
      String.eqb code "ERR_CHILD_PROCESS_STDIO_MAXBUFFER"
  | _ => false
  end.

(** What [git] and the describer throw. *)
Inductive Thrown : Type :=
| Error (message : string)
| ExecError (message : string) (out err : Output) (cause : string + ExecRejection)
| ThrownGitError (e : GitError)
| Rethrown (err : ExecRejection).

(** How a call completes. *)
Inductive completion (A : Type) : Type :=
| Normal (a : A)
| Abrupt (t : Thrown).
Arguments Normal {A} a.
Arguments Abrupt {A} t.

(** ** Execution options *)

(** [IGitExecutionOptions], with the options of dugite that [git] reads
    or writes. [processCallback] is left out, and with it what goes on
    inside the callback [git] installs while the subprocess runs: the
    callback feeds the terminal output, which the embedding receives from
    [exec] together with the result; it logs an error of the stream it
    sets up; and it calls the callback of the caller. The events of a run
    are those of the statements of [git] itself. *)
Record IGitExecutionOptions : Type := {
  successExitCodes : property (gset Z);
  expectedErrors : property (gset DugiteError);
  trackLFSProgress : property bool;
  isBackgroundTask : property bool;
  encoding : property Encoding;
  maxBuffer : property number;
  env : property Env
}.

(** [{ ...base, ...over }] for an [over] that may be [undefined]. *)
Definition spread_options (base : IGitExecutionOptions)
    (over : option IGitExecutionOptions) : IGitExecutionOptions :=
  match over with
  | None => base
  | Some o =>
      {| successExitCodes := spread (successExitCodes base) (successExitCodes o);
         expectedErrors := spread (expectedErrors base) (expectedErrors o);
         trackLFSProgress := spread (trackLFSProgress base) (trackLFSProgress o);
         isBackgroundTask := spread (isBackgroundTask base) (isBackgroundTask o);
         encoding := spread (encoding base) (encoding o);
         maxBuffer := spread (maxBuffer base) (maxBuffer o);
         env := spread (env base) (env o) |}
  end.

(** [opts.env = e]. *)
Definition with_env (opts : IGitExecutionOptions) (e : Env) : IGitExecutionOptions :=
  {| successExitCodes := successExitCodes opts;
     expectedErrors := expectedErrors opts;
     trackLFSProgress := trackLFSProgress opts;
     isBackgroundTask := isBackgroundTask opts;
     encoding := encoding opts;
     maxBuffer := maxBuffer opts;
     env := Present e |}.

(** [options?.p]. *)
Definition read_optional {A} (options : option IGitExecutionOptions)
    (p : IGitExecutionOptions -> property A) : option A :=
  match options with
  | Some o => read (p o)
  | None => None
  end.

(** [options?.encoding === 'buffer']. *)
Definition encoding_is_buffer (options : option IGitExecutionOptions) : bool :=
  match read_optional options encoding with
  | Some buffer => true
  | _ => false
  end.

(** Modelled from the spec: [merge] of [app/src/lib/merge.ts], which is
    outside the source tree. The spec has the resolved environment
    "merged over caller-supplied ones": the result holds every variable of
    [subset] and, for the other names, the caller's. *)
Definition merge (obj : option Env) (subset : Env) : Env :=
  subset ∪ default ∅ obj.

(** ** Effects of [git]: what it does to the outside, in order *)

(** The lines [git] collects in [errorMessage] before logging them.
    [TerminalTail terminalOutput start] is the line
    [terminalOutput.slice(start)], kept as the text and the index it is
    cut from. *)
Inductive LogLine : Type :=
| UnexpectedExitCode (args : list string) (exitCode : Z)
| TerminalTail (terminalOutput : string) (start : Z)
| ParsedAs (gitError : DugiteError) (gitErrorDescription : option string).

(** [Logged errorMessage] is the call [log.error(errorMessage.join('\n'))]
    that [git] makes before it throws a GitError. *)
Inductive Event : Type :=
| Spawned (args : list string) (path : string) (opts : IGitExecutionOptions)
| Classified (text : string)
| Logged (errorMessage : list LogLine).

(** A computation that completes normally or throws, and leaves a trace of
    the events it caused. *)
Definition Run (A : Type) : Type := (completion A * list Event)%type.

#[global] Instance Run_ret : MRet Run := fun A a => (Normal a, []).

#[global] Instance Run_bind : MBind Run := fun A B k m =>
  match m with
  | (Normal a, before) =>
      match k a with
      | (r, after) => (r, before ++ after)
      end
  | (Abrupt t, before) => (Abrupt t, before)
  end.

Definition throw {A} (t : Thrown) : Run A := (Abrupt t, []).

Definition emit (e : Event) : Run unit := (Normal tt, [e]).

Definition lift {A} (c : completion A) : Run A := (c, []).

Definition trace {A} (m : Run A) : list Event := snd m.

Definition outcome {A} (m : Run A) : completion A := fst m.

(** What [exec] settles with: dugite's result, together with the value
    the variable [terminalOutput] holds by then, or a rejection. *)
Inductive ExecOutcome : Type :=
| Resolves (result : DugiteResult) (terminalOutput : string)
| Rejects (err : ExecRejection).

(** Modelled from the spec: [GitPerf.measure] of [app/src/ui/lib/git-perf.ts],
    which is outside the source tree: "wraps execution for timing; purely
    observational, no behavioral effect". *)
Definition measure {A} (commandName : string) (fn : Run A) : Run A := fn.

(** [args.join(' ')]. *)
Fixpoint join (sep : string) (parts : list string) : string :=
  match parts with
  | [] => ""
  | [p] => p
  | p :: rest => p +:+ sep +:+ join sep rest
  end.

(** ** What the module imports *)

(** dugite's [parseBadConfigValueErrorInfo] yields the key and the value
    of a bad-config-value message, or null. *)
Record BadConfigValueErrorInfo : Type := {
  key : string;
  value : string
}.

(** The functions and constants the module takes from elsewhere.
    - [__DARWIN__], [__WIN32__]: constants of the build.
    - [parseError], [parseBadConfigValueErrorInfo], [exec]: functions of
      the dugite package, [parseError] being its classifier of git's
      diagnostics.
    - [DugiteError_value]: the number a member stands for in dugite's
      enumeration.
    - [trampolineEnv]: the environment the trampoline resolves for a
      path, a background flag and the caller's environment.
    - [utf8]: [buffer.toString('utf8')] of Node.
    - [kStringMaxLength]: the constant of Node's [buffer] module.
    - [Path_resolve]: [Path.resolve] of the platform, for two
      arguments. *)
Class Imports : Type := {
  __DARWIN__ : bool;
  __WIN32__ : bool;
  parseError : string -> option DugiteError;
  parseBadConfigValueErrorInfo : string -> option BadConfigValueErrorInfo;
  exec : list string -> string -> IGitExecutionOptions -> ExecOutcome;
  DugiteError_value : DugiteError -> Z;
  trampolineEnv : string -> bool -> option Env -> Env;
  utf8 : list ascii -> string;
  kStringMaxLength : N;
  Path_resolve : string -> string -> string
}.

(** ** The error describer *)

(** The value [getDescriptionForError] switches on at run time: a member
    of the enumeration or, should dugite grow a member the module does
    not know, some other number. *)
Inductive ErrorValue : Type :=
| Member (e : DugiteError)
| NonMember (n : Z).

Definition isAuthFailureError (error : ErrorValue) : bool :=
  match error with
  | Member SSHAuthenticationFailed
  | Member SSHPermissionDenied
  | Member HTTPSAuthenticationFailed => true
  | _ => false
  end.

(** Modelled from the spec: [assertNever] of [app/src/lib/fatal-error.ts],
    which is outside the source tree. The spec calls it a fatal "unknown
    error" signal that fails loudly: it throws an error carrying the
    message and returns nothing. *)
Definition assertNever {A} (error : ErrorValue) (message : string) : completion A :=
  Abrupt (Error message).

(** The double quote inside the description of [PushWithPrivateEmail]. *)
Definition dquote : string := String (ascii_of_nat 34) EmptyString.

Section Describer.

Context `{Imports}.

(** [`${error}`]: an error value printed as the number it is. *)
Definition show_error (error : ErrorValue) : string :=
  match error with
  | Member e => pretty (DugiteError_value e)
  | NonMember n => pretty n
  end.

Definition getDescriptionForError (error : ErrorValue) (stderr : string)
  : completion (option string) :=
  if isAuthFailureError error then
    let menuHint := if __DARWIN__ then "GitHub Desktop > 设置。" else "文件 > 设置。" in
    Normal (Some ("身份认证失败，通常可能是因为：

- 您尚未登录您的账号：见 " +:+ menuHint +:+ "
- 您可能需要退出并重新登录来刷新登录令牌。
- 您没有该仓库的访问权限。
- 该仓库在 GitHub 上已经被存档，请检查仓库设置来确定您是否仍有权推送提交。
- 使用 SSH 认证时，您的私钥不正确，请检查登录密钥是否已添加到 ssh-agent 并与您的账号相关联。
- 使用 SSH 认证时，对方公钥不匹配，请检查您的仓库托管服务是否通过了主机密钥验证。
- 使用账号密码认证时，您可能需要把个人访问令牌作为密码来输入，具体请查阅您的仓库托管服务的文档。"))
  else
  match error with
  | Member BadConfigValue =>
      match parseBadConfigValueErrorInfo stderr with
      | None => Normal (Some "Git 配置文件的值有误。")
      | Some errorInfo =>
          Normal (Some ("Git 配置文件中键 '" +:+ key errorInfo +:+ "' 的值 '"
                        +:+ value errorInfo +:+ "' 有误。"))
      end
  | Member SSHKeyAuditUnverified =>
      Normal (Some "SSH 密钥未验证。")
  | Member RemoteDisconnection =>
      Normal (Some "远程端已断开连接，请检查网络连接并重试。")
  | Member HostDown =>
      Normal (Some "服务器不可用，请检查网络连接并重试。")
  | Member RebaseConflicts =>
      Normal (Some "重构出现冲突，请先解决冲突再继续。")
  | Member MergeConflicts =>
      Normal (Some "合并出现冲突，请先解决冲突并提交。")
  | Member HTTPSRepositoryNotFound
  | Member SSHRepositoryNotFound =>
      Normal (Some "仓库不存在，可能您没有访问权限，或者它已经被删除或重命名了。")
  | Member PushNotFastForward =>
      Normal (Some "在您上次拉取过后，仓库有更新，您在推送前需要先拉取更新。")
  | Member BranchDeletionFailed =>
      Normal (Some "无法删除分支，它可能已经被删掉了。")
  | Member DefaultBranchDeletionFailed =>
      Normal (Some "此分支是仓库的默认分支，不可以删除。")
  | Member RevertConflicts =>
      Normal (Some "请先合并和提交改动，然后才能完成逆转提交。")
  | Member EmptyRebasePatch =>
      Normal (Some "没有可应用的改动。")
  | Member NoMatchingRemoteBranch =>
      Normal (Some "当前分支没有对应的远程分支。")
  | Member NothingToCommit =>
      Normal (Some "没有可提交的改动。")
  | Member NoSubmoduleMapping =>
      Normal (Some "子模块已从 .gitmodules 移除，但它的文件夹尚未删除，请删除文件夹，提交改动，然后重试。")
  | Member SubmoduleRepositoryDoesNotExist =>
      Normal (Some "子模块指向一个不存在的位置。")
  | Member InvalidSubmoduleSHA =>
      Normal (Some "子模块指向一个不存在的提交。")
  | Member LocalPermissionDenied =>
      Normal (Some "没有访问权限。")
  | Member InvalidMerge =>
      Normal (Some "该内容不能合并。")
  | Member InvalidRebase =>
      Normal (Some "该内容不能重构。")
  | Member NonFastForwardMergeIntoEmptyHead =>
      Normal (Some "该合并不是快进合并，无法在空分支上执行。")
  | Member PatchDoesNotApply =>
      Normal (Some "该改动与仓库中的文件冲突。")
  | Member BranchAlreadyExists =>
      Normal (Some "同名分支已存在。")
  | Member BadRevision =>
      Normal (Some "无效修订。")
  | Member NotAGitRepository =>
      Normal (Some "这不是 Git 仓库。")
  | Member ProtectedBranchForcePush =>
      Normal (Some "该分支受保护，不允许强制推送。")
  | Member ProtectedBranchRequiresReview =>
      Normal (Some "该分支受保护，任何更改都需要审核批准，你需要为此创建拉取请求。")
  | Member PushWithFileSizeExceedingLimit =>
      Normal (Some "推送包含了大小超过 100MB 的文件，超过 GitHub 文件大小限制，请从历史记录中删除过大的文件后重试。")
  | Member HexBranchNameRejected =>
      Normal (Some "分支名称不能是 40 位十六进制字符串，这与 Git 对象的格式有冲突。")
  | Member ForcePushRejected =>
      Normal (Some "该分支拒绝了强制推送。")
  | Member InvalidRefLength =>
      Normal (Some "引用的长度不能超过 255 字符。")
  | Member CannotMergeUnrelatedHistories =>
      Normal (Some "无法合并从不相关的历史记录。")
  | Member PushWithPrivateEmail =>
      Normal (Some ("无法推送，提交的邮箱在 GitHub 上设为私有。如需继续，请访问 https://github.com/settings/emails 取消勾选 "
                    +:+ dquote +:+ "保持我的邮箱地址为私有" +:+ dquote
                    +:+ "，然后回来继续提交。提交完成后可以重新勾选。"))
  | Member LFSAttributeDoesNotMatch =>
      Normal (Some "全局 Git 配置文件中的 Git LFS 属性与当前不符。")
  | Member ProtectedBranchDeleteRejected =>
      Normal (Some "该分支受保护，不能从远程端删除。")
  | Member ProtectedBranchRequiredStatus =>
      Normal (Some "状态检查失败，推送已被远程服务器拒绝。")
  | Member BranchRenameFailed =>
      Normal (Some "无法重命名该分支。")
  | Member PathDoesNotExist =>
      Normal (Some "该路径不存在。")
  | Member InvalidObjectName =>
      Normal (Some "Git 仓库中找不到该对象。")
  | Member OutsideRepository =>
      Normal (Some "该路径在仓库中无效。")
  | Member LockFileAlreadyExists =>
      Normal (Some "仓库中已存在锁文件，该操作被阻止。")
  | Member NoMergeToAbort =>
      Normal (Some "当前没有合并操作，不需要停止。")
  | Member NoExistingRemoteBranch =>
      Normal (Some "远程分支不存在。")
  | Member LocalChangesOverwritten =>
      Normal (Some "当前有未提交的文件改动，如果切换分支会被覆盖导致丢失，因此请先提交或暂存这些改动。")
  | Member UnresolvedConflicts =>
      Normal (Some "当前仍有冲突未解决。")
  | Member ConfigLockFileAlreadyExists =>
      Normal None
  | Member RemoteAlreadyExists =>
      Normal None
  | Member TagAlreadyExists =>
      Normal (Some "同名标签已存在。")
  | Member MergeWithLocalChanges
  | Member RebaseWithLocalChanges
  | Member GPGFailedToSignData
  | Member ConflictModifyDeletedInBranch
  | Member MergeCommitNoMainlineOption
  | Member UnsafeDirectory
  | Member PathExistsButNotInRef =>
      Normal None
  | _ =>
      assertNever error ("未知错误：" +:+ show_error error)
  end.

End Describer.

(** ** The pattern [lockFilePathRe]

    [/^error: could not lock config file (.+?): File exists$/m], run by
    [RegExp.prototype.exec] from index 0: the first index at which the
    pattern matches wins, and the result kept is the group. *)

Definition LF : ascii := "010"%char.
Definition CR : ascii := "013"%char.

Definition is_newline (c : ascii) : bool := Ascii.eqb c LF || Ascii.eqb c CR.

(** The second and third byte of U+2028 and U+2029, the two other
    LineTerminator characters, whose encodings are E2 80 A8 and E2 80 A9. *)
Definition is_separator_tail (c2 c3 : ascii) : bool :=
  Ascii.eqb c2 "128"%char && (Ascii.eqb c3 "168"%char || Ascii.eqb c3 "169"%char).

(** A LineTerminator at the head of [s]: the text that follows it. *)
Definition line_terminator (s : string) : option string :=
  match s with
  | EmptyString => None
  | String c s1 =>
      if is_newline c then Some s1
      else if Ascii.eqb c "226"%char then
        match s1 with
        | String c2 (String c3 s3) =>
            if is_separator_tail c2 c3 then Some s3 else None
        | _ => None
        end
      else None
  end.

(** [s] without the leading [p], when it starts with [p]. *)
Fixpoint strip_prefix (p s : string) : option string :=
  match p with
  | EmptyString => Some s
  | String a p' =>
      match s with
      | String b s' => if Ascii.eqb a b then strip_prefix p' s' else None
      | EmptyString => None
      end
  end.

(** [$] under the [m] flag: the end of the input, or a LineTerminator
    ahead. *)
Definition line_end (ahead : string) : bool :=
  match ahead with
  | EmptyString => true
  | _ => not_null (line_terminator ahead)
  end.

Definition lock_prefix : string := "error: could not lock config file ".
Definition lock_suffix : string := ": File exists".

(** [(.+?): File exists$] once the group holds a character: the group
    stops as soon as the rest of the pattern matches, and otherwise takes
    one more character, which [.] refuses when it is a LineTerminator.
    The result is what the group takes from [s]. *)
Fixpoint lazy_group (s : string) : option string :=
  let more :=
    match s with
    | EmptyString => None
    | String c s1 =>
        if not_null (line_terminator s) then None
        else String c <$> lazy_group s1
    end in
  match strip_prefix lock_suffix s with
  | Some ahead => if line_end ahead then Some EmptyString else more
  | None => more
  end.

(** The pattern after [^], at the head of [s]: the group of the match. *)
Definition match_here (s : string) : option string :=
  match strip_prefix lock_prefix s with
  | Some (String c s1 as group) =>
      if not_null (line_terminator group) then None
      else String c <$> lazy_group s1
  | _ => None
  end.

(** The indices in turn. [line_start] tells whether [^] holds at the
    head of [s]: at index 0 and after a LineTerminator. A LineTerminator
    is one character of the input, also where its encoding takes three
    bytes; inside the encoding of any other character [^] fails. *)
Fixpoint exec_from (line_start : bool) (s : string) : option string :=
  match (if line_start then match_here s else None) with
  | Some group => Some group
  | None =>
      match s with
      | EmptyString => None
      | String c s1 =>
          if is_newline c then exec_from true s1
          else if Ascii.eqb c "226"%char then
            match s1 with
            | String c2 (String c3 s3) =>
                if is_separator_tail c2 c3 then exec_from true s3
                else exec_from false s1
            | _ => exec_from false s1
            end
          else exec_from false s1
      end
  end.

(** [lockFilePathRe.exec(s)], reduced to [match[1]]. *)
Definition lockFilePathRe_exec (s : string) : option string := exec_from true s.

(** [s.replace(a, b)] for one-character strings: the first [a] becomes
    [b]. *)
Fixpoint replace_first (a b : ascii) (s : string) : string :=
  match s with
  | EmptyString => EmptyString
  | String c s' => if Ascii.eqb c a then String b s' else String c (replace_first a b s')
  end.

(** ** The orchestrator *)

Section Core.

Context `{Imports}.

Definition coerceToString (value : Output) : string :=
  match value with
  | Buf b => utf8 b
  | Str s => s
  end.

(** The constructor of the class [GitError]. *)
Definition new_GitError (result : IGitResult) (args : list string)
    (terminalOutput : string) : GitError :=
  let '(message, rawMessage) :=
    if truthy (gitErrorDescription result) then
      (default "" (gitErrorDescription result), false)
    else if truthy_length (String.length terminalOutput) then
      (terminalOutput, true)
    else if truthy_length (length_of (stderr result)) then
      (coerceToString (stderr result), true)
    else if truthy_length (length_of (stdout result)) then
      (coerceToString (stdout result), true)
    else
      ("Unknown error (exit code " +:+ pretty (exitCode result) +:+ ")", false)
  in
  {| message := message; result := result; args := args;
     isRawMessage := rawMessage |}.

(** Modelled from the spec: [withTrampolineEnv] of
    [app/src/lib/trampoline/trampoline-environment.ts], which is outside
    the source tree: it "supplies merged environment for the duration of
    body", and what the body returns or throws is its own result. *)
Definition withTrampolineEnv {A} (fn : Env -> Run A) (path : string)
    (isBackgroundTask : bool) (customEnv : option Env) : Run A :=
  fn (trampolineEnv path isBackgroundTask customEnv).

(** [parseError(text)], with the call recorded. *)
Definition classify (text : string) : Run (option DugiteError) :=
  emit (Classified text);; mret (parseError text).

(** [exec(args, path, opts)] with the [catch] handler [git] attaches. *)
Definition exec_or_throw (args : list string) (path name : string)
    (opts : IGitExecutionOptions) : Run (DugiteResult * string) :=
  emit (Spawned args path opts);;
  match exec args path opts with
  | Resolves result terminalOutput => mret (result, terminalOutput)
  | Rejects err =>
      match err with
      | ErrnoException code =>
          throw (Error ("Failed to execute " +:+ name +:+ ": " +:+ code))
      | DugiteExecError _ message out errput cause =>
          if isMaxBufferExceededError err then
            throw (ExecError (message +:+ " for " +:+ name) out errput
                     (match cause with
                      | Some c => inl c
                      | None => inr err
                      end))
          else throw (Rethrown err)
      | OtherRejection _ => throw (Rethrown err)
      end
  end.

Definition defaultOptions (options : option IGitExecutionOptions)
  : IGitExecutionOptions :=
  {| successExitCodes := Present {[ 0%Z ]};
     expectedErrors := Present ∅;
     trackLFSProgress := Absent;
     isBackgroundTask := Absent;
     encoding := Absent;
     maxBuffer := Present (if encoding_is_buffer options then Infinity
                           else Finite kStringMaxLength);
     env := Absent |}.

(** The function [git]. [opts_env] is [opts.env] as the callback reads
    it, named ahead of the callback because its parameter is called [env]
    as well. The assignment to [opts.processCallback] has no counterpart
    here (see [IGitExecutionOptions]): of what the callback does, the
    embedding has the terminal output [exec] settles with. *)
Definition git (args : list string) (path name : string)
    (options : option IGitExecutionOptions) : Run IGitResult :=
  let opts := spread_options (defaultOptions options) options in
  let opts_env := read (env opts) in
  withTrampolineEnv
    (fun env =>
       let combinedEnv := merge opts_env env in
       let opts := with_env opts (combinedEnv ∪ {[ "TERM" := "dumb" ]}) in
       let commandName := name +:+ ": git " +:+ join " " args in
       '(result, terminalOutput) ←
          measure commandName (exec_or_throw args path name opts);
       let exitCode := dugite_exitCode result in
       let acceptableExitCode :=
         match read (successExitCodes opts) with
         | Some codes => bool_decide (exitCode ∈ codes)
         | None => false
         end in
       gitError ←
         (if negb acceptableExitCode then
            parsed ← classify (coerceToString (dugite_stderr result));
            match parsed with
            | None => classify (coerceToString (dugite_stdout result))
            | Some _ => mret parsed
            end
          else mret None);
       gitErrorDescription ←
         match gitError with
         | Some e =>
             lift (getDescriptionForError
                     (Member e) (coerceToString (dugite_stderr result)))
         | None => mret None
         end;
       let gitResult :=
         {| stdout := dugite_stdout result;
            stderr := dugite_stderr result;
            exitCode := dugite_exitCode result;
            gitError := gitError;
            gitErrorDescription := gitErrorDescription;
            path := path |} in
       let acceptableError :=
         match gitError, read (expectedErrors opts) with
         | Some e, Some expected => bool_decide (e ∈ expected)
         | _, _ => true
         end in
       if (not_null gitError && acceptableError) || acceptableExitCode then
         mret gitResult
       else
         let errorMessage :=
           [UnexpectedExitCode args exitCode]
           ++ (if truthy_length (String.length terminalOutput)
               then [TerminalTail terminalOutput (-1024)] else [])
           ++ (match gitError with
               | Some e => [ParsedAs e gitErrorDescription]
               | None => []
               end) in
         emit (Logged errorMessage);;
         throw (ThrownGitError (new_GitError gitResult args terminalOutput)))
    path
    (default false (read_optional options isBackgroundTask))
    (read_optional options env).

(** [isConfigFileLockError], for the errors [git] throws. *)
Definition isConfigFileLockError (error : Thrown) : bool :=
  match error with
  | ThrownGitError e =>
      bool_decide (gitError (result e) = Some ConfigLockFileAlreadyExists)
  | _ => false
  end.

Definition parseConfigLockFilePathFromError (result : IGitResult) : option string :=
  match lockFilePathRe_exec (coerceToString (stderr result)) with
  | None => None
  | Some group =>
      let normalized :=
        if __WIN32__ then replace_first "/"%char "\"%char group else group in
      Some (Path_resolve (path result) (normalized +:+ ".lock"))
  end.

End Core.

(** ** What the module exports beside [git] *)

(** [isGitError(e, parsedError)], [None] standing for a [parsedError]
    the caller leaves out. *)
Definition isGitError (e : Thrown) (parsedError : option DugiteError) : bool :=
  match e with
  | ThrownGitError e =>
      match parsedError with
      | None => true
      | Some code => bool_decide (gitError (result e) = Some code)
      end
  | _ => false
  end.

(** [s.split(sep)] for a separator of one character: the pieces between
    its occurrences, one more than there are occurrences. *)
Fixpoint split (sep : ascii) (s : string) : list string :=
  match s with
  | EmptyString => [EmptyString]
  | String c s' =>
      if Ascii.eqb c sep then EmptyString :: split sep s'
      else
        match split sep s' with
        | piece :: more => String c piece :: more
        | [] => [String c EmptyString]
        end
  end.

(** [parseCommitSHA]. Its parameter is an [IGitStringResult], whose
    stdout is a string: the case of a Buffer, which the type checker of
    the source refuses, is there only to make the function total.
    Indexing an array past its end yields [undefined], here [None]. *)
Definition parseCommitSHA (result : IGitResult) : option string :=
  match stdout result with
  | Str text =>
      bracketed ← split "]" text !! 0%nat;
      split " " bracketed !! 1%nat
  | Buf _ => None
  end.

(** [gitRebaseArguments()]. *)
Definition gitRebaseArguments : list string :=
  [] ++ ["-c"; "rebase.backend=merge"].

(** ** [path.posix.resolve]

    Node resolves the arguments from the right until the path is
    absolute, falling back on the working directory of the process, and
    normalizes the result: empty and [.] segments go, [..] removes the
    segment before it, nothing rises above the root. *)

Definition is_absolute (p : string) : bool :=
  match p with
  | String "/"%char _ => true
  | _ => false
  end.

Fixpoint gather (right_to_left : list string) (resolvedPath : string) : string :=
  match right_to_left with
  | [] => resolvedPath
  | p :: more =>
      if String.eqb p "" then gather more resolvedPath
      else
        let resolvedPath := p +:+ "/" +:+ resolvedPath in
        if is_absolute p then resolvedPath else gather more resolvedPath
  end.

(** The segments between the slashes of [s], [current] being the one
    under way. *)
Fixpoint segments (current s : string) : list string :=
  match s with
  | EmptyString => [current]
  | String c s' =>
      if Ascii.eqb c "/"%char then current :: segments "" s'
      else segments (current +:+ String c "") s'
  end.

(** One segment against the segments kept so far, last one first. *)
Definition normalize_step (kept : list string) (segment : string) : list string :=
  if String.eqb segment "" || String.eqb segment "." then kept
  else if String.eqb segment ".." then tail kept
  else segment :: kept.

Definition normalize (segs : list string) : list string :=
  rev (fold_left normalize_step segs []).

(** [path.posix.resolve(from, to)] in a process whose working directory
    is the absolute path [cwd]. *)
Definition posix_resolve (cwd from to : string) : string :=
  "/" +:+ join "/" (normalize (segments "" (gather [to; from; cwd] ""))).

(** ** The classifier, as the specification describes it *)

(** A table of the classifier: patterns with the code each stands for. *)
Abbreviation ClassifierTable := (list ((string -> bool) * DugiteError)).

(** Modelled from the spec: the Error Classifier, [parseError] of the
    dugite package, which is outside the source tree. "Matching is
    first-match-wins over a fixed priority-ordered table; if no entry
    matches, returns null." *)
Fixpoint parseError_with (table : ClassifierTable) (text : string)
  : option DugiteError :=
  match table with
  | [] => None
  | (pattern, code) :: rest =>
      if pattern text then Some code else parseError_with rest text
  end.

(** [(.+): File exists] once the group holds a character. *)
Fixpoint group_then_suffix (s : string) : bool :=
  not_null (strip_prefix lock_suffix s)
  || match s with
     | EmptyString => false
     | String c s1 => negb (not_null (line_terminator s)) && group_then_suffix s1
     end.

Definition config_lock_pattern_here (s : string) : bool :=
  match strip_prefix lock_prefix s with
  | Some (String c s1 as group) =>
      negb (not_null (line_terminator group)) && group_then_suffix s1
  | _ => false
  end.

(** Modelled from the spec: the entry of the table for "a line matching
    [error: could not lock config file (.+): File exists]", a pattern
    searched anywhere in the text. *)
Fixpoint config_lock_pattern (text : string) : bool :=
  config_lock_pattern_here text
  || match text with
     | EmptyString => false
     | String _ rest => config_lock_pattern rest
     end.

(** Modelled from the spec: a pattern that is a plain phrase, as "text
    containing [Permission denied (publickey)]". *)
Fixpoint contains (phrase text : string) : bool :=
  not_null (strip_prefix phrase text)
  || match text with
     | EmptyString => false
     | String _ rest => contains phrase rest
     end.

(** * The component [BranchSelect]

    The first part of [app/src/ui/branches/branch-select.tsx] (lines 1 to
    137): a React component that keeps the branch the user picked and the
    text of the filter. *)

Module BranchSelect.

(** What the component takes from elsewhere: [Repository] and [Branch]
    of the models, a branch having a [name]; what [noBranchesMessage] may
    hold; [ClickSource] of [ui/lib/list]; and the functions a parent may
    pass as [onChange]. *)
Class Models : Type := {
  Repository : Type;
  Branch : Type;
  name : Branch -> string;
  Message : Type;
  ClickSource : Type;
  Handler : Type
}.

Section Component.

Context `{Models}.

Record IBranchSelectProps : Type := {
  repository : Repository;
  branch : option Branch;
  defaultBranch : option Branch;
  currentBranch : Branch;
  allBranches : list Branch;
  recentBranches : list Branch;
  onChange : option Handler;
  noBranchesMessage : option Message
}.

Record IBranchSelectState : Type := {
  selectedBranch : option Branch;
  filterText : string
}.

(** An instance: its props, its state, and whether [popoverRef.current]
    holds the dropdown. *)
Record Component : Type := {
  props : IBranchSelectProps;
  state : IBranchSelectState;
  popoverRef : bool
}.

(** What a method does to the outside. *)
Inductive Effect : Type :=
| preventDefault (source : ClickSource)
| closePopover
| called (handler : Handler) (branch : Branch).

Definition new_BranchSelect (props : IBranchSelectProps) : Component :=
  {| props := props;
     state := {| selectedBranch := branch props; filterText := "" |};
     popoverRef := false |}.

(** [this.setState(state)], with the state after the merge. *)
Definition setState (this : Component) (state : IBranchSelectState) : Component :=
  {| props := props this; state := state; popoverRef := popoverRef this |}.

Definition onItemClick (this : Component) (branch : Branch)
    (source : ClickSource) : Component * list Effect :=
  (setState this {| selectedBranch := Some branch;
                    filterText := filterText (state this) |},
   [preventDefault source]
   ++ (if popoverRef this then [closePopover] else [])
   ++ match onChange (props this) with
      | Some handler => [called handler branch]
      | None => []
      end).

Definition onFilterTextChanged (this : Component) (filterText : string)
  : Component :=
  setState this {| selectedBranch := selectedBranch (state this);
                   filterText := filterText |}.

(** What [render] hands to the dropdown and to the list inside it, the
    methods it passes as callbacks apart. *)
Record Rendered : Type := {
  contentTitle : string;
  buttonContent : string;
  label : string;
  list_repository : Repository;
  list_allBranches : list Branch;
  list_currentBranch : Branch;
  list_defaultBranch : option Branch;
  list_recentBranches : list Branch;
  list_filterText : string;
  list_selectedBranch : option Branch;
  canCreateNewBranch : bool;
  list_noBranchesMessage : option Message
}.

Definition render (this : Component) : Rendered :=
  {| contentTitle := "选择基准分支";
     buttonContent :=
       match selectedBranch (state this) with
       | Some selected => name selected
       | None => ""
       end;
     label := "基准:";
     list_repository := repository (props this);
     list_allBranches := allBranches (props this);
     list_currentBranch := currentBranch (props this);
     list_defaultBranch := defaultBranch (props this);
     list_recentBranches := recentBranches (props this);
     list_filterText := filterText (state this);
     list_selectedBranch := selectedBranch (state this);
     canCreateNewBranch := false;
     list_noBranchesMessage := noBranchesMessage (props this) |}.

(** What happens to an instance: the list reports a click or a change of
    the filter, the parent passes new props, React sets or clears the
    ref. *)
Inductive Action : Type :=
| ItemClicked (branch : Branch) (source : ClickSource)
| FilterTextChanged (filterText : string)
| PropsReceived (props : IBranchSelectProps)
| RefSet (current : bool).

Definition step (this : Component) (action : Action) : Component * list Effect :=
  match action with
  | ItemClicked branch source => onItemClick this branch source
  | FilterTextChanged filterText => (onFilterTextChanged this filterText, [])
  | PropsReceived props =>
      ({| props := props; state := state this; popoverRef := popoverRef this |},
       [])
  | RefSet current =>
      ({| props := props this; state := state this; popoverRef := current |}, [])
  end.

(** An instance after a series of actions, with the effects in order. *)
Fixpoint run (this : Component) (actions : list Action)
  : Component * list Effect :=
  match actions with
  | [] => (this, [])
  | action :: more =>
      let '(next, effects) := step this action in
      let '(final, later) := run next more in
      (final, effects ++ later)
  end.

(** The branches clicked, the texts typed into the filter, the handlers
    called and the clicks whose default was prevented. *)
Definition clicked (actions : list Action) : list Branch :=
  omap (fun action => match action with
                      | ItemClicked branch _ => Some branch
                      | _ => None
                      end) actions.

Definition clicks (actions : list Action) : list ClickSource :=
  omap (fun action => match action with
                      | ItemClicked _ source => Some source
                      | _ => None
                      end) actions.

Definition typed (actions : list Action) : list string :=
  omap (fun action => match action with
                      | FilterTextChanged filterText => Some filterText
                      | _ => None
                      end) actions.

Definition calls (effects : list Effect) : list (Handler * Branch) :=
  omap (fun effect => match effect with
                      | called handler branch => Some (handler, branch)
                      | _ => None
                      end) effects.

Definition prevented (effects : list Effect) : list ClickSource :=
  omap (fun effect => match effect with
                      | preventDefault source => Some source
                      | _ => None
                      end) effects.

Definition keeps_props (action : Action) : bool :=
  match action with
  | PropsReceived _ => false
  | _ => true
  end.

End Component.

End BranchSelect.

(** * Notions the properties are stated with *)

(** ** Lines of a text

    The lines the LineTerminators of ECMAScript cut a text into: what the
    [m] flag makes [^] and [$] delimit. *)

(** [c] in front of the first line. *)
Definition push (c : ascii) (ls : list string) : list string :=
  match ls with
  | [] => [String c ""]
  | l :: more => String c l :: more
  end.

Fixpoint lines (s : string) : list string :=
  match s with
  | EmptyString => [""]
  | String c s1 =>
      if is_newline c then "" :: lines s1
      else if Ascii.eqb c "226"%char then
        match s1 with
        | String c2 (String c3 s3) =>
            if is_separator_tail c2 c3 then "" :: lines s3
            else push c (lines s1)
        | _ => push c (lines s1)
        end
      else push c (lines s1)
  end.

(** The line git prints when the lock file of a config file exists. *)
Definition lock_line (file : string) : string :=
  lock_prefix +:+ file +:+ lock_suffix.

(** [l] without the trailing [suffix], when it ends with it. *)
Fixpoint strip_suffix (suffix l : string) : option string :=
  if String.eqb l suffix then Some EmptyString
  else
    match l with
    | EmptyString => None
    | String c l' => String c <$> strip_suffix suffix l'
    end.

(** The file a line names, when the line is [lock_line file] for a
    non-empty [file]. *)
Definition lock_file_of_line (l : string) : option string :=
  match strip_prefix lock_prefix l with
  | Some (String c rest) => String c <$> strip_suffix lock_suffix rest
  | _ => None
  end.

(** The file named by the first line that names one. *)
Fixpoint first_lock_file (ls : list string) : option string :=
  match ls with
  | [] => None
  | l :: more =>
      match lock_file_of_line l with
      | Some file => Some file
      | None => first_lock_file more
      end
  end.

(** The first line of a text. *)
Definition first_line (s : string) : string := hd "" (lines s).

(** Characters that neither are nor begin a LineTerminator. *)
Definition inert (c : ascii) : bool :=
  negb (is_newline c) && negb (Ascii.eqb c "226").

Fixpoint all_inert (p : string) : bool :=
  match p with
  | EmptyString => true
  | String c p' => inert c && all_inert p'
  end.

(** ** The message of a GitError *)

(** The texts the constructor of [GitError] can take the message from. *)
Inductive MessageSource : Type :=
| ParsedDescription
| TerminalOutput
| RawStderr
| RawStdout
| GenericFallback.

(** Whether a source is the output of git, word for word. *)
Definition verbatim (source : MessageSource) : bool :=
  match source with
  | TerminalOutput | RawStderr | RawStdout => true
  | ParsedDescription | GenericFallback => false
  end.

(** The source the message comes from: the first text that is not empty,
    in the order description, terminal output, stderr, stdout. *)
Inductive taken_from (result : IGitResult) (terminalOutput : string)
  : MessageSource -> Prop :=
| from_description :
    truthy (gitErrorDescription result) = true ->
    taken_from result terminalOutput ParsedDescription
| from_terminal :
    truthy (gitErrorDescription result) = false ->
    terminalOutput <> "" ->
    taken_from result terminalOutput TerminalOutput
| from_stderr :
    truthy (gitErrorDescription result) = false ->
    terminalOutput = "" ->
    length_of (stderr result) <> 0 ->
    taken_from result terminalOutput RawStderr
| from_stdout :
    truthy (gitErrorDescription result) = false ->
    terminalOutput = "" ->
    length_of (stderr result) = 0 ->
    length_of (stdout result) <> 0 ->
    taken_from result terminalOutput RawStdout
| from_nothing :
    truthy (gitErrorDescription result) = false ->
    terminalOutput = "" ->
    length_of (stderr result) = 0 ->
    length_of (stdout result) = 0 ->
    taken_from result terminalOutput GenericFallback.

(** ** Runs of [git] *)

(** [git] completes normally. *)
Definition returns_normally (m : Run IGitResult) : Prop :=
  exists res : IGitResult, outcome m = Normal res.

(** The options object of the caller has the property, whatever its
    value: [{ p: undefined }] has it as well. *)
Definition supplies {A} (options : option IGitExecutionOptions)
    (p : IGitExecutionOptions -> property A) : Prop :=
  exists o, options = Some o /\ p o <> Absent.

(** The caller handed over [expectedErrors] with the value [undefined]. *)
Definition expectedErrors_undefined (options : option IGitExecutionOptions)
  : Prop :=
  exists o, options = Some o /\ expectedErrors o = Undefined.

(** The caller handed over [successExitCodes] with the value
    [undefined]. *)
Definition successExitCodes_undefined (options : option IGitExecutionOptions)
  : Prop :=
  exists o, options = Some o /\ successExitCodes o = Undefined.

(** What [git] throws for a rejection of [exec]. *)
Definition rejection_thrown (name : string) (err : ExecRejection) : Thrown :=
  match err with
  | ErrnoException code =>
      Error ("Failed to execute " +:+ name +:+ ": " +:+ code)
  | DugiteExecError _ message out errput cause =>
      if isMaxBufferExceededError err then
        ExecError (message +:+ " for " +:+ name) out errput
                  (match cause with
                   | Some c => inl c
                   | None => inr err
                   end)
      else Rethrown err
  | OtherRejection _ => Rethrown err
  end.

(** The environment of the first spawn among the events. *)
Definition spawned_env (events : list Event) : option Env :=
  match events with
  | Spawned _ _ opts :: _ => read (env opts)
  | _ => None
  end.

Section Notions.

Context `{Imports}.

(** The text a source stands for. *)
Definition text_of (result : IGitResult) (terminalOutput : string)
    (source : MessageSource) : string :=
  match source with
  | ParsedDescription => default "" (gitErrorDescription result)
  | TerminalOutput => terminalOutput
  | RawStderr => coerceToString (stderr result)
  | RawStdout => coerceToString (stdout result)
  | GenericFallback =>
      "Unknown error (exit code " +:+ pretty (exitCode result) +:+ ")"
  end.

(** The description of a member of the enumeration. *)
Definition description_of (e : DugiteError) (stderr : string) : option string :=
  match getDescriptionForError (Member e) stderr with
  | Normal d => d
  | Abrupt _ => None
  end.

(** The options after the defaults: [opts] at its declaration. *)
Definition merged_options (options : option IGitExecutionOptions)
  : IGitExecutionOptions :=
  spread_options (defaultOptions options) options.

(** The environment the trampoline resolves for an invocation. *)
Definition resolved_env (path : string) (options : option IGitExecutionOptions)
  : Env :=
  trampolineEnv path (default false (read_optional options isBackgroundTask))
                (read_optional options env).

(** The environment of the caller merged with the resolved one. *)
Definition combined_env (path : string) (options : option IGitExecutionOptions)
  : Env :=
  merge (read (env (merged_options options))) (resolved_env path options).

(** The options [exec] receives. *)
Definition spawn_options (path : string) (options : option IGitExecutionOptions)
  : IGitExecutionOptions :=
  with_env (merged_options options)
           (combined_env path options ∪ {[ "TERM" := "dumb" ]}).

(** The exit code is in the configured set of success exit codes. *)
Definition in_success_set (options : option IGitExecutionOptions) (code : Z)
  : Prop :=
  exists codes : gset Z,
    read (successExitCodes (merged_options options)) = Some codes /\ code ∈ codes.

(** The error is in the configured set of expected errors. *)
Definition in_expected_set (options : option IGitExecutionOptions)
    (e : DugiteError) : Prop :=
  exists expected : gset DugiteError,
    read (expectedErrors (merged_options options)) = Some expected
    /\ e ∈ expected.

(** The code the classifier finds: in stderr, and in stdout when stderr
    yields none. *)
Definition classified (r : DugiteResult) : option DugiteError :=
  match parseError (coerceToString (dugite_stderr r)) with
  | Some e => Some e
  | None => parseError (coerceToString (dugite_stdout r))
  end.

(** The result [git] builds from dugite's for a parsed error. *)
Definition result_of (path : string) (r : DugiteResult)
    (e : option DugiteError) : IGitResult :=
  {| stdout := dugite_stdout r;
     stderr := dugite_stderr r;
     exitCode := dugite_exitCode r;
     gitError := e;
     gitErrorDescription :=
       match e with
       | Some e => description_of e (coerceToString (dugite_stderr r))
       | None => None
       end;
     path := path |}.

(** The calls of the classifier after an exit code that is no success. *)
Definition classifier_calls (r : DugiteResult) : list Event :=
  Classified (coerceToString (dugite_stderr r))
  :: match parseError (coerceToString (dugite_stderr r)) with
     | Some _ => []
     | None => [Classified (coerceToString (dugite_stdout r))]
     end.

(** The lines [git] logs before it throws. *)
Definition logged_lines (args : list string) (r : DugiteResult)
    (terminalOutput : string) (e : option DugiteError) : list LogLine :=
  [UnexpectedExitCode args (dugite_exitCode r)]
  ++ (if truthy_length (String.length terminalOutput)
      then [TerminalTail terminalOutput (-1024)] else [])
  ++ (match e with
      | Some e => [ParsedAs e (description_of e (coerceToString (dugite_stderr r)))]
      | None => []
      end).

(** [acceptableExitCode]. *)
Definition acceptable_exit_code (options : option IGitExecutionOptions)
    (r : DugiteResult) : bool :=
  match read (successExitCodes (merged_options options)) with
  | Some codes => bool_decide (dugite_exitCode r ∈ codes)
  | None => false
  end.

(** [acceptableError]. *)
Definition acceptable_error (options : option IGitExecutionOptions)
    (e : option DugiteError) : bool :=
  match e, read (expectedErrors (merged_options options)) with
  | Some e, Some expected => bool_decide (e ∈ expected)
  | _, _ => true
  end.

(** What [git] makes of a result of [exec]: how it completes, and the
    events after the spawn. *)
Definition settle (args : list string) (path : string)
    (options : option IGitExecutionOptions) (r : DugiteResult)
    (terminalOutput : string) : Run IGitResult :=
  if acceptable_exit_code options r then
    (Normal (result_of path r None), [])
  else if not_null (classified r) && acceptable_error options (classified r) then
    (Normal (result_of path r (classified r)), classifier_calls r)
  else
    (Abrupt (ThrownGitError
               (new_GitError (result_of path r (classified r)) args
                             terminalOutput)),
     classifier_calls r
     ++ [Logged (logged_lines args r terminalOutput (classified r))]).

End Notions.

(** ** The events of a run, by kind *)

Definition spawns (events : list Event)
  : list (list string * string * IGitExecutionOptions) :=
  omap (fun event => match event with
                     | Spawned args path opts => Some (args, path, opts)
                     | _ => None
                     end) events.

Definition classifier_inputs (events : list Event) : list string :=
  omap (fun event => match event with
                     | Classified text => Some text
                     | _ => None
                     end) events.

(** The error messages [git] itself passes to [log.error], one for each
    [Logged] event. *)
Definition logged_messages (events : list Event) : list (list LogLine) :=
  omap (fun event => match event with
                     | Logged errorMessage => Some errorMessage
                     | _ => None
                     end) events.

(** The result a run of [git] leaves its caller with: the one returned,
    or the one inside the GitError thrown. *)
Definition carries (m : Run IGitResult) (res : IGitResult) : Prop :=
  outcome m = Normal res
  \/ exists e : GitError, outcome m = Abrupt (ThrownGitError e) /\ result e = res.

(** The members [getDescriptionForError] has no description for. *)
Definition undescribed : list DugiteError :=
  [ ConfigLockFileAlreadyExists; RemoteAlreadyExists; MergeWithLocalChanges;
    RebaseWithLocalChanges; GPGFailedToSignData; ConflictModifyDeletedInBranch;
    MergeCommitNoMainlineOption; UnsafeDirectory; PathExistsButNotInRef ].

(** ** Words of a text *)

(** [c] does not occur in [s]. *)
Fixpoint free_of (c : ascii) (s : string) : bool :=
  match s with
  | EmptyString => true
  | String a s' => negb (Ascii.eqb a c) && free_of c s'
  end.

(** A text without space and closing bracket. *)
Definition word (w : string) : bool := free_of " " w && free_of "]" w.

(** Where a word ends: at the end of the text, or before one of [cs]. *)
Definition starts_with_any (cs : list ascii) (s : string) : bool :=
  match s with
  | EmptyString => true
  | String c _ => bool_decide (c ∈ cs)
  end.

(** * Concrete surroundings, for running the definitions *)

Module Sample.

(** A table with three entries, two of them named by the specification. *)
Definition table : ClassifierTable :=
  [ (contains "Permission denied (publickey)", SSHAuthenticationFailed);
    (config_lock_pattern, ConfigLockFileAlreadyExists);
    (contains "fatal: not a git repository", NotAGitRepository) ].

(** Imports of a build for Linux: a classifier with the table above, a
    decoder for buffers of ASCII bytes, a trampoline that supplies the
    askpass helper, and an [exec] that settles with [o] whatever it is
    asked. *)
Definition imports (o : ExecOutcome) : Imports :=
  {| __DARWIN__ := false;
     __WIN32__ := false;
     parseError := parseError_with table;
     parseBadConfigValueErrorInfo := fun _ => None;
     exec := fun _ _ _ => o;
     DugiteError_value := fun e => Z.of_nat (error_key e);
     trampolineEnv := fun _ _ _ =>
       {[ "GIT_ASKPASS" := "/app/desktop-askpass-trampoline" ]};
     utf8 := string_of_list_ascii;
     kStringMaxLength := 536870888%N;
     Path_resolve := posix_resolve "/" |}.

(** The same imports for functions that never call [exec]. *)
Definition at_rest : Imports := imports (Rejects (OtherRejection "not run")).

(** [git] with these imports. *)
Definition git (o : ExecOutcome) : list string -> string -> string ->
    option IGitExecutionOptions -> Run IGitResult :=
  @git (imports o).

Definition nl : string := String LF "".

(** [git status] in a repository. *)
Definition status_ok : DugiteResult :=
  {| dugite_stdout := Str ("On branch main" +:+ nl);
     dugite_stderr := Str "";
     dugite_exitCode := 0 |}.

(** A failure the table does not know, with output on both streams. *)
Definition odd_failure : DugiteResult :=
  {| dugite_stdout := Str ("Enumerating objects: 5, done." +:+ nl);
     dugite_stderr := Str ("fatal: the remote end hung up in an odd way" +:+ nl);
     dugite_exitCode := 128 |}.

(** What the terminal shows of [odd_failure]: both streams. *)
Definition odd_terminal : string :=
  "Enumerating objects: 5, done." +:+ nl
  +:+ "fatal: the remote end hung up in an odd way" +:+ nl.

(** [git status] outside a repository. *)
Definition not_a_repository : DugiteResult :=
  {| dugite_stdout := Str "";
     dugite_stderr :=
       Str ("fatal: not a git repository (or any of the parent directories): .git"
            +:+ nl);
     dugite_exitCode := 128 |}.

(** [{ expectedErrors: undefined }]. *)
Definition no_expected_errors : IGitExecutionOptions :=
  {| successExitCodes := Absent; expectedErrors := Undefined;
     trackLFSProgress := Absent; isBackgroundTask := Absent;
     encoding := Absent; maxBuffer := Absent; env := Absent |}.

(** A failed [git config], with two config files locked. *)
Definition two_locks : IGitResult :=
  {| stdout := Str "";
     stderr :=
       Str ("error: could not lock config file /a/.git/config: File exists"
            +:+ nl
            +:+ "error: could not lock config file /r/.git/config: File exists"
            +:+ nl);
     exitCode := 255;
     gitError := Some ConfigLockFileAlreadyExists;
     gitErrorDescription := None;
     path := "/repo" |}.

(** A failed [git config] in the repository [/r], run from [/repo]. *)
Definition one_lock : IGitResult :=
  {| stdout := Str "";
     stderr :=
       Str ("error: could not lock config file /r/.git/config: File exists"
            +:+ nl);
     exitCode := 255;
     gitError := Some ConfigLockFileAlreadyExists;
     gitErrorDescription := None;
     path := "/repo" |}.

(** The result [git] has for [not_a_repository]. *)
Definition not_a_repository_result : IGitResult :=
  {| stdout := Str "";
     stderr :=
       Str ("fatal: not a git repository (or any of the parent directories): .git"
            +:+ nl);
     exitCode := 128;
     gitError := Some NotAGitRepository;
     gitErrorDescription := Some "这不是 Git 仓库。";
     path := "/repo" |}.

(** [{ env: { TERM: 'xterm-256color' } }]. *)
Definition with_terminal : IGitExecutionOptions :=
  {| successExitCodes := Absent; expectedErrors := Absent;
     trackLFSProgress := Absent; isBackgroundTask := Absent;
     encoding := Absent; maxBuffer := Absent;
     env := Present {[ "TERM" := "xterm-256color" ]} |}.

End Sample.

(** Further surroundings and inputs. *)
Module Cases.

(** [{ expectedErrors: new Set([DugiteError.NotAGitRepository]) }]. *)
Definition expecting_no_repository : IGitExecutionOptions :=
  {| successExitCodes := Absent;
     expectedErrors := Present {[ NotAGitRepository ]};
     trackLFSProgress := Absent; isBackgroundTask := Absent;
     encoding := Absent; maxBuffer := Absent; env := Absent |}.

(** [{ successExitCodes: undefined }]. *)
Definition no_success_codes : IGitExecutionOptions :=
  {| successExitCodes := Undefined; expectedErrors := Absent;
     trackLFSProgress := Absent; isBackgroundTask := Absent;
     encoding := Absent; maxBuffer := Absent; env := Absent |}.

(** The error of dugite for a [git log] whose output outgrows
    [maxBuffer], Node's error having left no cause. *)
Definition buffer_overflow : ExecRejection :=
  DugiteExecError (Some "ERR_CHILD_PROCESS_STDIO_MAXBUFFER")
                  "stdout maxBuffer length exceeded" (Str "partial") (Str "")
                  None.

(** The error of dugite when no git binary is found: an [ExecError]
    around the ENOENT of Node. *)
Definition missing_binary : ExecRejection :=
  DugiteExecError (Some "ENOENT") "spawn git ENOENT" (Str "") (Str "")
                  (Some "Error: spawn git ENOENT").

(** A [git config] that finds the config file of [/r] locked. *)
Definition config_locked : DugiteResult :=
  {| dugite_stdout := Str "";
     dugite_stderr :=
       Str ("error: could not lock config file /r/.git/config: File exists"
            +:+ Sample.nl);
     dugite_exitCode := 255 |}.

(** The GitError [git] throws for [config_locked] when run from
    [/repo]. *)
Definition config_locked_error : GitError :=
  {| message :=
       "error: could not lock config file /r/.git/config: File exists"
       +:+ Sample.nl;
     result :=
       {| stdout := Str "";
          stderr :=
            Str ("error: could not lock config file /r/.git/config: File exists"
                 +:+ Sample.nl);
          exitCode := 255;
          gitError := Some ConfigLockFileAlreadyExists;
          gitErrorDescription := None;
          path := "/repo" |};
     args := ["config"; "user.name"; "Mona"];
     isRawMessage := true |}.

(** The GitError [git] throws for a [git status] outside a
    repository. *)
Definition not_a_repository_error : GitError :=
  {| message := "这不是 Git 仓库。";
     result := Sample.not_a_repository_result;
     args := ["status"];
     isRawMessage := false |}.

(** Imports of a build for Windows. [Path_resolve] hands back its second
    argument, which shows what the module passes to it. *)
Definition windows : Imports :=
  {| __DARWIN__ := false;
     __WIN32__ := true;
     parseError := parseError_with Sample.table;
     parseBadConfigValueErrorInfo := fun _ => None;
     exec := fun _ _ _ => Rejects (OtherRejection "not run");
     DugiteError_value := fun e => Z.of_nat (error_key e);
     trampolineEnv := fun _ _ _ => ∅;
     utf8 := string_of_list_ascii;
     kStringMaxLength := 536870888%N;
     Path_resolve := fun _ to => to |}.

(** A failed [git config] on Windows, git printing the path with
    forward slashes. *)
Definition locked_on_windows : IGitResult :=
  {| stdout := Str "";
     stderr :=
       Str ("error: could not lock config file C:/r/.git/config: File exists"
            +:+ Sample.nl);
     exitCode := 255;
     gitError := Some ConfigLockFileAlreadyExists;
     gitErrorDescription := None;
     path := "C:\repo" |}.

(** The result of a [git commit], as far as [parseCommitSHA] reads it. *)
Definition committed (text : string) : IGitResult :=
  {| stdout := Str text; stderr := Str ""; exitCode := 0;
     gitError := None; gitErrorDescription := None; path := "/repo" |}.

(** Branches that are their names, clicks that carry nothing, and one
    handler. *)
Definition models : BranchSelect.Models :=
  {| BranchSelect.Repository := string;
     BranchSelect.Branch := string;
     BranchSelect.name := fun b => b;
     BranchSelect.Message := string;
     BranchSelect.ClickSource := unit;
     BranchSelect.Handler := unit |}.

(** Props with [main] as the initial branch and an [onChange]. *)
Definition on_main : @BranchSelect.IBranchSelectProps models :=
  @BranchSelect.Build_IBranchSelectProps models
    "/repo" (Some "main") (Some "main") "topic" ["main"; "topic"; "release"]
    ["topic"] (Some tt) None.

(** The user filters for [rel] and clicks [release], then clears the
    filter and clicks [topic]. *)
Definition two_choices : list (@BranchSelect.Action models) :=
  [ @BranchSelect.RefSet models true;
    @BranchSelect.FilterTextChanged models "rel";
    @BranchSelect.ItemClicked models "release" tt;
    @BranchSelect.FilterTextChanged models "";
    @BranchSelect.ItemClicked models "topic" tt ].

End Cases.

(** * Properties *)

Arguments getDescriptionForError : simpl never.

(** ** The definitions at work *)

Example spread_keeps_default :
  spread (Present 1%Z) Absent = Present 1%Z.
Proof. reflexivity. Qed.

Example spread_copies_undefined :
  spread (Present 1%Z) Undefined = Undefined.
Proof. reflexivity. Qed.

Example join_args : join " " ["rev-parse"; "--verify"; "HEAD"] = "rev-parse --verify HEAD".
Proof. reflexivity. Qed.

Example lines_of_two_lines :
  lines ("AB" +:+ Sample.nl +:+ "CD") = ["AB"; "CD"].
Proof. reflexivity. Qed.

Example lines_after_carriage_return :
  lines ("A" +:+ String CR "BC") = ["A"; "BC"].
Proof. reflexivity. Qed.

(** U+2028 is one LineTerminator, three bytes long. *)
Example lines_after_line_separator :
  lines ("A" +:+ String "226" (String "128" (String "168" "BC"))) = ["A"; "BC"].
Proof. reflexivity. Qed.

Example lockFilePathRe_on_the_line :
  lockFilePathRe_exec
    "error: could not lock config file /r/.git/config: File exists"
  = Some "/r/.git/config".
Proof. reflexivity. Qed.

Example lockFilePathRe_on_a_later_line :
  lockFilePathRe_exec
    ("warning: something" +:+ Sample.nl
     +:+ "error: could not lock config file C:/r/.git/config: File exists"
     +:+ Sample.nl +:+ "fatal: done")
  = Some "C:/r/.git/config".
Proof. reflexivity. Qed.

(** [^] and [$] hold at the ends of a line only. *)
Example lockFilePathRe_inside_a_line :
  lockFilePathRe_exec
    "git: error: could not lock config file /r/.git/config: File exists"
  = None
  /\ lockFilePathRe_exec
       "error: could not lock config file /r/.git/config: File exists."
     = None.
Proof. split; reflexivity. Qed.

(** The group is lazy, and yet runs to the last [: File exists]. *)
Example lockFilePathRe_group_to_the_end :
  lockFilePathRe_exec
    "error: could not lock config file /r: File exists: File exists"
  = Some "/r: File exists".
Proof. reflexivity. Qed.

(** The group needs a character. *)
Example lockFilePathRe_empty_group :
  lockFilePathRe_exec "error: could not lock config file : File exists" = None.
Proof. reflexivity. Qed.

Example lockFilePathRe_after_carriage_return :
  lockFilePathRe_exec
    ("Counting objects: 10%" +:+ String CR
       "error: could not lock config file /r/.git/config: File exists")
  = Some "/r/.git/config".
Proof. reflexivity. Qed.

Example replace_first_slash :
  replace_first "/" "\" "C:/r/.git/config" = "C:\r/.git/config".
Proof. reflexivity. Qed.

Example posix_resolve_relative :
  posix_resolve "/home/me" "repo" ".git/config.lock" = "/home/me/repo/.git/config.lock".
Proof. reflexivity. Qed.

Example posix_resolve_dots :
  posix_resolve "/home/me" "/repo/sub/" "../.git/./config.lock" = "/repo/.git/config.lock".
Proof. reflexivity. Qed.

Example config_lock_pattern_inside_a_line :
  config_lock_pattern
    "git: error: could not lock config file /r/.git/config: File exists."
  = true.
Proof. reflexivity. Qed.

Example parseError_with_first_entry_wins :
  parseError_with Sample.table
    ("git@github.com: Permission denied (publickey)." +:+ Sample.nl
     +:+ "error: could not lock config file /r/.git/config: File exists")
  = Some SSHAuthenticationFailed.
Proof. reflexivity. Qed.

Example git_status_in_repository :
  Sample.git (Resolves Sample.status_ok "") ["status"] "/repo" "status" None
  = (Normal {| stdout := Str ("On branch main" +:+ Sample.nl);
               stderr := Str "";
               exitCode := 0;
               gitError := None;
               gitErrorDescription := None;
               path := "/repo" |},
     [Spawned ["status"] "/repo"
        (@spawn_options (Sample.imports (Resolves Sample.status_ok ""))
           "/repo" None)]).
Proof. reflexivity. Qed.

Example git_max_buffer_exceeded :
  outcome (Sample.git
             (Rejects (DugiteExecError
                         (Some "ERR_CHILD_PROCESS_STDIO_MAXBUFFER")
                         "stdout maxBuffer length exceeded"
                         (Str "partial") (Str "") (Some "RangeError")))
             ["log"] "/repo" "getCommits" None)
  = Abrupt (ExecError "stdout maxBuffer length exceeded for getCommits"
              (Str "partial") (Str "") (inl "RangeError")).
Proof. reflexivity. Qed.

(** ** The describer *)

Section DescriberProperties.

Context `{Imports}.

(** Every member of the enumeration gets a description or null. *)
Lemma describe_member (e : DugiteError) (stderr : string) :
  exists d, getDescriptionForError (Member e) stderr = Normal d.
Proof.
  unfold getDescriptionForError.
  destruct e; cbn [isAuthFailureError]; try (eexists; reflexivity).
  destruct (parseBadConfigValueErrorInfo stderr); eexists; reflexivity.
Qed.

Lemma describe_member_eq (e : DugiteError) (stderr : string) :
  getDescriptionForError (Member e) stderr = Normal (description_of e stderr).
Proof.
  unfold description_of.
  destruct (describe_member e stderr) as [d ->]. reflexivity.
Qed.

(** C5: getDescriptionForError has a case for every member of the
    enumeration, each yielding a string or null, so no member reaches the
    default branch; a value outside the enumeration, and only such a
    value, reaches it, and there the function throws the unknown-error
    failure instead of returning a description. *)
Theorem getDescriptionForError_exhaustive :
  forall stderr : string,
    (forall e : DugiteError,
        exists d : option string,
          getDescriptionForError (Member e) stderr = Normal d)
    /\ (forall (error : ErrorValue) (t : Thrown),
           getDescriptionForError error stderr = Abrupt t ->
           exists n : Z, error = NonMember n)
    /\ (forall n : Z,
           getDescriptionForError (NonMember n) stderr
           = Abrupt (Error ("未知错误：" +:+ pretty n))).
Proof.
  intros stderr. split; [| split].
  - intros e. apply describe_member.
  - intros [e | n] t Hthrown.
    + destruct (describe_member e stderr) as [d Hd].
      rewrite Hd in Hthrown. discriminate Hthrown.
    + exists n. reflexivity.
  - intros n. reflexivity.
Qed.

End DescriberProperties.

(** ** The message of a GitError *)

Lemma truthy_length_true (n : nat) : truthy_length n = true <-> n <> 0.
Proof.
  unfold truthy_length. destruct n; simpl; split; intros Hn; congruence.
Qed.

Section GitErrorProperties.

Context `{Imports}.

(** The message and the flag, read off the source. *)
Lemma new_GitError_by_source (result : IGitResult) (args : list string)
    (terminalOutput : string) (source : MessageSource) :
  taken_from result terminalOutput source ->
  message (new_GitError result args terminalOutput)
  = text_of result terminalOutput source
  /\ isRawMessage (new_GitError result args terminalOutput) = verbatim source.
Proof.
  intros Hsource. unfold new_GitError.
  destruct Hsource as [Hd | Hd Ht | Hd Ht He | Hd Ht He Ho | Hd Ht He Ho];
    rewrite Hd; simpl.
  - split; reflexivity.
  - destruct terminalOutput as [| c t]; [congruence |]. split; reflexivity.
  - subst terminalOutput. apply truthy_length_true in He. simpl. rewrite He.
    split; reflexivity.
  - subst terminalOutput. simpl. rewrite He. simpl.
    apply truthy_length_true in Ho. rewrite Ho. split; reflexivity.
  - subst terminalOutput. simpl. rewrite He, Ho. split; reflexivity.
Qed.

(** The result and the arguments are kept as they are. *)
Lemma new_GitError_keeps (res : IGitResult) (argv : list string)
    (terminalOutput : string) :
  result (new_GitError res argv terminalOutput) = res
  /\ args (new_GitError res argv terminalOutput) = argv.
Proof.
  unfold new_GitError.
  destruct (truthy (gitErrorDescription res)); [split; reflexivity |].
  destruct (truthy_length (String.length terminalOutput)); [split; reflexivity |].
  destruct (truthy_length (length_of (stderr res))); [split; reflexivity |].
  destruct (truthy_length (length_of (stdout res))); split; reflexivity.
Qed.

(** Some source always applies. *)
Lemma taken_from_total (result : IGitResult) (terminalOutput : string) :
  exists source, taken_from result terminalOutput source.
Proof.
  destruct (truthy (gitErrorDescription result)) eqn:Hd.
  { exists ParsedDescription. constructor. exact Hd. }
  destruct terminalOutput as [| c t] eqn:Ht.
  2: { exists TerminalOutput. constructor; [exact Hd | discriminate]. }
  destruct (length_of (stderr result)) as [| n] eqn:He.
  2: { exists RawStderr. constructor; [exact Hd | reflexivity | lia]. }
  destruct (length_of (stdout result)) as [| m] eqn:Ho.
  2: { exists RawStdout. constructor; [exact Hd | reflexivity | exact He | lia]. }
  exists GenericFallback. constructor; assumption || reflexivity.
Qed.

(** And only one. *)
Lemma taken_from_unique (result : IGitResult) (terminalOutput : string)
    (source other : MessageSource) :
  taken_from result terminalOutput source ->
  taken_from result terminalOutput other ->
  other = source.
Proof. intros Hsource Hother. destruct Hsource; destruct Hother; congruence. Qed.

(** C9: for every constructed GitError the message comes from exactly one
    source; isRawMessage is false exactly when that source is the parsed
    error description or the generic "Unknown error (exit code N)"
    fallback, and true exactly when it is the terminal output, stderr or
    stdout taken verbatim. *)
Theorem GitError_isRawMessage_tells_source :
  forall (result : IGitResult) (args : list string) (terminalOutput : string),
    exists source : MessageSource,
      taken_from result terminalOutput source
      /\ (forall other, taken_from result terminalOutput other -> other = source)
      /\ message (new_GitError result args terminalOutput)
         = text_of result terminalOutput source
      /\ (isRawMessage (new_GitError result args terminalOutput) = false
          <-> source = ParsedDescription \/ source = GenericFallback)
      /\ (isRawMessage (new_GitError result args terminalOutput) = true
          <-> source = TerminalOutput \/ source = RawStderr \/ source = RawStdout).
Proof.
  intros result args terminalOutput.
  destruct (taken_from_total result terminalOutput) as [source Hsource].
  exists source.
  destruct (new_GitError_by_source result args terminalOutput source Hsource)
    as [Hmessage Hflag].
  split; [exact Hsource |]. split; [| split; [exact Hmessage |]].
  - intros other Hother.
    exact (taken_from_unique result terminalOutput source other Hsource Hother).
  - rewrite Hflag. destruct source; simpl; split; intuition congruence.
Qed.

End GitErrorProperties.

(** ** The orchestrator *)

(** Laws of the computations [git] is written with. *)
Lemma run_ret_bind {A B} (a : A) (k : A -> Run B) : (mret a ≫= k) = k a.
Proof.
  unfold mret, mbind, Run_ret, Run_bind. destruct (k a) as [r after].
  reflexivity.
Qed.

Lemma run_emit_bind {B} (e : Event) (k : Run B) :
  (emit e;; k) = (outcome k, e :: trace k).
Proof.
  unfold emit, mbind, Run_bind. destruct k as [r after]. reflexivity.
Qed.

Lemma run_throw_bind {A B} (t : Thrown) (k : A -> Run B) :
  (throw t ≫= k) = throw t.
Proof. reflexivity. Qed.

Section GitProperties.

Context `{Imports}.

Lemma spawn_options_successExitCodes (path : string)
    (options : option IGitExecutionOptions) :
  successExitCodes (spawn_options path options)
  = successExitCodes (merged_options options).
Proof. reflexivity. Qed.

Lemma spawn_options_expectedErrors (path : string)
    (options : option IGitExecutionOptions) :
  expectedErrors (spawn_options path options)
  = expectedErrors (merged_options options).
Proof. reflexivity. Qed.

(** [git] spawns, and then settles the result [exec] resolves with. *)
Lemma git_resolves (args : list string) (path name : string)
    (options : option IGitExecutionOptions) (r : DugiteResult)
    (terminalOutput : string) :
  exec args path (spawn_options path options) = Resolves r terminalOutput ->
  git args path name options
  = (outcome (settle args path options r terminalOutput),
     Spawned args path (spawn_options path options)
     :: trace (settle args path options r terminalOutput)).
Proof.
  intros Hexec.
  unfold git, withTrampolineEnv, measure, exec_or_throw.
  fold (merged_options options). fold (resolved_env path options).
  fold (combined_env path options). fold (spawn_options path options).
  rewrite Hexec, spawn_options_successExitCodes, spawn_options_expectedErrors.
  unfold settle, acceptable_exit_code, acceptable_error, classified,
    classifier_calls, logged_lines, result_of, classify.
  unfold mbind, Run_bind, mret, Run_ret, emit, lift, throw, outcome, trace.
  cbn [fst snd].
  destruct (read (successExitCodes (merged_options options))) as [codes |];
    [destruct (bool_decide (dugite_exitCode r ∈ codes)) |];
    cbn [negb app]; try reflexivity.
  all: destruct (parseError (coerceToString (dugite_stderr r))) as [e |];
    [| destruct (parseError (coerceToString (dugite_stdout r))) as [e |]];
    try rewrite (describe_member_eq e);
    cbn [not_null andb orb app];
    try reflexivity.
  all: destruct (read (expectedErrors (merged_options options))) as [expected |];
    [destruct (bool_decide (e ∈ expected)) |]; reflexivity.
Qed.

(** What [git] throws for a rejection is no GitError. *)
Lemma rejection_thrown_no_GitError (name : string) (err : ExecRejection)
    (e : GitError) :
  rejection_thrown name err <> ThrownGitError e.
Proof.
  destruct err as [code | code message out errput cause | message];
    cbn [rejection_thrown]; try discriminate.
  destruct (isMaxBufferExceededError
              (DugiteExecError code message out errput cause)); discriminate.
Qed.

(** [git] after a rejection of [exec]: the spawn is the only event. *)
Lemma git_rejects (args : list string) (path name : string)
    (options : option IGitExecutionOptions) (err : ExecRejection) :
  exec args path (spawn_options path options) = Rejects err ->
  git args path name options
  = (Abrupt (rejection_thrown name err),
     [Spawned args path (spawn_options path options)]).
Proof.
  intros Hexec.
  unfold git, withTrampolineEnv, measure, exec_or_throw.
  fold (merged_options options). fold (resolved_env path options).
  fold (combined_env path options). fold (spawn_options path options).
  rewrite Hexec.
  destruct err as [code | code message out errput cause | message];
    [reflexivity | | reflexivity].
  cbn [rejection_thrown].
  destruct (isMaxBufferExceededError
              (DugiteExecError code message out errput cause)); reflexivity.
Qed.

(** The first event of [git] is the spawn, whatever [exec] does. *)
Lemma git_spawns (args : list string) (path name : string)
    (options : option IGitExecutionOptions) :
  exists rest : list Event,
    trace (git args path name options)
    = Spawned args path (spawn_options path options) :: rest.
Proof.
  destruct (exec args path (spawn_options path options))
    as [r terminalOutput | err] eqn:Hexec.
  - rewrite (git_resolves args path name options r terminalOutput Hexec).
    eexists. reflexivity.
  - rewrite (git_rejects args path name options err Hexec).
    eexists. reflexivity.
Qed.

Lemma acceptable_exit_code_spec (options : option IGitExecutionOptions)
    (r : DugiteResult) :
  acceptable_exit_code options r = true
  <-> in_success_set options (dugite_exitCode r).
Proof.
  unfold acceptable_exit_code, in_success_set.
  destruct (read (successExitCodes (merged_options options))) as [codes |].
  - rewrite bool_decide_eq_true. split.
    + intros Hin. exists codes. split; [reflexivity | exact Hin].
    + intros (codes' & Heq & Hin). congruence.
  - split; [discriminate |]. intros (codes' & Heq & _). discriminate.
Qed.

Lemma expectedErrors_read_none (options : option IGitExecutionOptions) :
  read (expectedErrors (merged_options options)) = None
  <-> expectedErrors_undefined options.
Proof.
  unfold merged_options, expectedErrors_undefined.
  destruct options as [o |]; cbn.
  - destruct (expectedErrors o) eqn:Hexpected; cbn; split.
    all: try discriminate.
    all: try (intros (o' & Ho & Hu); congruence).
    intros _. exists o. split; [reflexivity | exact Hexpected].
  - split; [discriminate |]. intros (o' & Ho & _). discriminate.
Qed.

Lemma acceptable_error_spec (options : option IGitExecutionOptions)
    (e : DugiteError) :
  acceptable_error options (Some e) = true
  <-> in_expected_set options e \/ expectedErrors_undefined options.
Proof.
  rewrite <- expectedErrors_read_none.
  unfold acceptable_error, in_expected_set.
  destruct (read (expectedErrors (merged_options options))) as [expected |].
  - rewrite bool_decide_eq_true. split.
    + intros Hin. left. exists expected. split; [reflexivity | exact Hin].
    + intros [(expected' & Heq & Hin) | Hnone]; congruence.
  - split; [intros _; right; reflexivity | reflexivity].
Qed.

(** How [settle] completes. *)
Lemma settle_returns (args : list string) (path : string)
    (options : option IGitExecutionOptions) (r : DugiteResult)
    (terminalOutput : string) :
  returns_normally (settle args path options r terminalOutput)
  <-> in_success_set options (dugite_exitCode r)
      \/ exists e, classified r = Some e
                   /\ (in_expected_set options e
                       \/ expectedErrors_undefined options).
Proof.
  unfold returns_normally, settle.
  rewrite <- acceptable_exit_code_spec.
  destruct (acceptable_exit_code options r).
  { split; [intros _; left; reflexivity | intros _; eexists; reflexivity]. }
  destruct (classified r) as [e |] eqn:Hclassified; cbn [not_null andb].
  - pose proof (acceptable_error_spec options e) as Hspec.
    destruct (acceptable_error options (Some e)).
    + split; [| intros _; eexists; reflexivity].
      intros _. right. exists e. split; [reflexivity | apply Hspec; reflexivity].
    + split; [intros (res & Hres); discriminate Hres |].
      intros [Hcode | (e' & He' & Hexpected)]; [discriminate Hcode |].
      injection He' as <-. apply Hspec in Hexpected. discriminate Hexpected.
  - split; [intros (res & Hres); discriminate Hres |].
    intros [Hcode | (e' & He' & _)]; discriminate.
Qed.

Lemma settle_throws (args : list string) (path : string)
    (options : option IGitExecutionOptions) (r : DugiteResult)
    (terminalOutput : string) :
  ~ returns_normally (settle args path options r terminalOutput) ->
  outcome (settle args path options r terminalOutput)
  = Abrupt (ThrownGitError
              (new_GitError (result_of path r (classified r)) args
                            terminalOutput)).
Proof.
  unfold returns_normally, settle. intros Hno.
  destruct (acceptable_exit_code options r).
  { exfalso. apply Hno. eexists. reflexivity. }
  destruct (not_null (classified r) && acceptable_error options (classified r)).
  { exfalso. apply Hno. eexists. reflexivity. }
  reflexivity.
Qed.

(** C1, amended: for options that pass neither successExitCodes nor
    expectedErrors with the value undefined, git returns a result
    normally if and only if the subprocess exits and either its exit code
    is in the configured set of success exit codes, or a classified error
    code exists and is a member of the expected-error set of the options;
    in every other completion in which the subprocess exits, git throws
    the GitError constructed from the result, the original argument
    vector and the terminal output, which has the result and the argument
    vector for fields. *)
Theorem git_return_policy :
  forall (argv : list string) (path name : string)
         (options : option IGitExecutionOptions),
    ~ successExitCodes_undefined options ->
    ~ expectedErrors_undefined options ->
    (returns_normally (git argv path name options)
     <-> exists (r : DugiteResult) (terminalOutput : string),
           exec argv path (spawn_options path options)
           = Resolves r terminalOutput
           /\ (in_success_set options (dugite_exitCode r)
               \/ exists e, classified r = Some e
                            /\ in_expected_set options e))
    /\ (forall (r : DugiteResult) (terminalOutput : string),
           exec argv path (spawn_options path options)
           = Resolves r terminalOutput ->
           ~ returns_normally (git argv path name options) ->
           exists e : GitError,
             outcome (git argv path name options) = Abrupt (ThrownGitError e)
             /\ e = new_GitError (result_of path r (classified r)) argv
                                 terminalOutput
             /\ result e = result_of path r (classified r)
             /\ args e = argv).
Proof.
  intros argv path name options _ Hdefined.
  assert (Hset : forall r : DugiteResult,
             in_success_set options (dugite_exitCode r)
             \/ (exists e, classified r = Some e
                           /\ (in_expected_set options e
                               \/ expectedErrors_undefined options))
             <-> in_success_set options (dugite_exitCode r)
                 \/ exists e, classified r = Some e
                              /\ in_expected_set options e).
  { intros r. split.
    - intros [Hcode | (e & He & [Hexpected | Hundefined])];
        [left; exact Hcode | right; exists e; split; assumption
        | contradiction].
    - intros [Hcode | (e & He & Hexpected)]; [left; exact Hcode |].
      right. exists e. split; [exact He | left; exact Hexpected]. }
  destruct (exec argv path (spawn_options path options))
    as [r terminalOutput | err] eqn:Hexec.
  - rewrite (git_resolves argv path name options r terminalOutput Hexec).
    split.
    + split.
      * intros (res & Hres). exists r, terminalOutput.
        split; [reflexivity |]. apply Hset.
        apply (settle_returns argv path options r terminalOutput).
        exists res. exact Hres.
      * intros (r' & t' & Heq & Hpolicy). injection Heq as <- <-.
        apply Hset in Hpolicy.
        apply (settle_returns argv path options r terminalOutput) in Hpolicy
          as (res & Hres).
        exists res. exact Hres.
    + intros r' t' Heq Hno. injection Heq as <- <-.
      eexists. split; [| split; [reflexivity |]].
      * apply settle_throws. intros (res & Hres). apply Hno. exists res.
        exact Hres.
      * apply new_GitError_keeps.
  - rewrite (git_rejects argv path name options err Hexec). split.
    + split.
      * intros (res & Hres). discriminate Hres.
      * intros (r & t & Heq & _). discriminate Heq.
    + intros r t Heq. discriminate Heq.
Qed.


(** C3, amended: when the exit code is outside the success set and the
    classifier matches neither stderr nor stdout, git throws a GitError
    whose message is the terminal output when that is not empty;
    otherwise the raw stderr text; if stderr is empty too, the raw stdout
    text; and if all three are empty, "Unknown error (exit code N)" for
    the exit code N. *)
Theorem git_unclassified_failure_message :
  forall (args : list string) (path name : string)
         (options : option IGitExecutionOptions) (r : DugiteResult)
         (terminalOutput : string),
    exec args path (spawn_options path options) = Resolves r terminalOutput ->
    ~ in_success_set options (dugite_exitCode r) ->
    classified r = None ->
    exists e : GitError,
      outcome (git args path name options) = Abrupt (ThrownGitError e)
      /\ (terminalOutput <> "" -> message e = terminalOutput)
      /\ (terminalOutput = "" -> length_of (dugite_stderr r) <> 0 ->
          message e = coerceToString (dugite_stderr r))
      /\ (terminalOutput = "" -> length_of (dugite_stderr r) = 0 ->
          length_of (dugite_stdout r) <> 0 ->
          message e = coerceToString (dugite_stdout r))
      /\ (terminalOutput = "" -> length_of (dugite_stderr r) = 0 ->
          length_of (dugite_stdout r) = 0 ->
          message e
          = "Unknown error (exit code " +:+ pretty (dugite_exitCode r) +:+ ")").
Proof.
  intros args path name options r terminalOutput Hexec Hcode Hnone.
  rewrite (git_resolves args path name options r terminalOutput Hexec).
  rewrite <- acceptable_exit_code_spec in Hcode.
  apply not_true_is_false in Hcode.
  unfold settle. rewrite Hcode, Hnone. cbn [not_null andb outcome fst].
  eexists. split; [reflexivity |].
  repeat split.
  - intros Hterminal.
    refine (proj1 (new_GitError_by_source (result_of path r None) args
                     terminalOutput TerminalOutput _)).
    constructor; [reflexivity | exact Hterminal].
  - intros Hterminal Hstderr.
    refine (proj1 (new_GitError_by_source (result_of path r None) args
                     terminalOutput RawStderr _)).
    constructor; [reflexivity | exact Hterminal | exact Hstderr].
  - intros Hterminal Hstderr Hstdout.
    refine (proj1 (new_GitError_by_source (result_of path r None) args
                     terminalOutput RawStdout _)).
    constructor; [reflexivity | exact Hterminal | exact Hstderr | exact Hstdout].
  - intros Hterminal Hstderr Hstdout.
    refine (proj1 (new_GitError_by_source (result_of path r None) args
                     terminalOutput GenericFallback _)).
    constructor; [reflexivity | exact Hterminal | exact Hstderr | exact Hstdout].
Qed.

(** The TERM of the caller's environment, if any. *)
Lemma caller_env_TERM (options : option IGitExecutionOptions) :
  default (∅ : Env) (read (env (merged_options options))) !! "TERM"
  = read_optional options env ≫= (.!! "TERM").
Proof.
  unfold merged_options.
  destruct options as [o |]; cbn; [| apply lookup_empty].
  destruct (env o) as [| | callerEnv]; cbn; try apply lookup_empty; reflexivity.
Qed.

(** The TERM of the combined environment: the resolved one, or else the
    caller's. *)
Lemma combined_env_TERM (path : string) (options : option IGitExecutionOptions) :
  combined_env path options !! "TERM"
  = match resolved_env path options !! "TERM" with
    | Some v => Some v
    | None => read_optional options env ≫= (.!! "TERM")
    end.
Proof.
  unfold combined_env, merge. rewrite lookup_union, caller_env_TERM.
  destruct (resolved_env path options !! "TERM") as [v |];
    destruct (read_optional options env ≫= (.!! "TERM")); reflexivity.
Qed.

(** The value of TERM git adds is a default: a TERM of the combined
    environment takes its place. *)
Lemma spawn_env_TERM (path : string) (options : option IGitExecutionOptions) :
  (combined_env path options ∪ {[ "TERM" := "dumb" ]} : Env) !! "TERM"
  = Some (default "dumb" (combined_env path options !! "TERM")).
Proof.
  rewrite lookup_union.
  destruct (combined_env path options !! "TERM") as [v |]; reflexivity.
Qed.

(** C4, amended: the environment git passes to the spawned subprocess
    binds TERM to 'dumb' whenever neither the environment the caller
    supplied nor the resolved ambient environment defines TERM; a TERM
    defined by the resolved environment, or else by the caller, is
    passed on in its place. *)
Theorem git_TERM_defaults_to_dumb :
  forall (args : list string) (path name : string)
         (options : option IGitExecutionOptions),
    exists e : Env,
      spawned_env (trace (git args path name options)) = Some e
      /\ (resolved_env path options !! "TERM" = None ->
          read_optional options env ≫= (.!! "TERM") = None ->
          e !! "TERM" = Some "dumb")
      /\ (forall v : string,
             resolved_env path options !! "TERM" = Some v ->
             e !! "TERM" = Some v)
      /\ (forall v : string,
             resolved_env path options !! "TERM" = None ->
             read_optional options env ≫= (.!! "TERM") = Some v ->
             e !! "TERM" = Some v).
Proof.
  intros args path name options.
  destruct (git_spawns args path name options) as [rest Htrace].
  rewrite Htrace. cbn [spawned_env spawn_options with_env env read].
  eexists. split; [reflexivity |].
  rewrite spawn_env_TERM, combined_env_TERM.
  repeat split.
  - intros -> ->. reflexivity.
  - intros v ->. reflexivity.
  - intros v -> ->. reflexivity.
Qed.

(** A property the caller does not supply keeps its default, one the
    caller supplies replaces it. *)
Lemma spread_default {A} (options : option IGitExecutionOptions)
    (p : IGitExecutionOptions -> property A) (def : property A) :
  (~ supplies options p ->
   match options with Some o => spread def (p o) | None => def end = def)
  /\ (forall o, options = Some o -> p o <> Absent ->
      match options with Some o => spread def (p o) | None => def end = p o).
Proof.
  unfold supplies. split.
  - intros Hno. destruct options as [o |]; [| reflexivity].
    destruct (p o) eqn:Hp; [reflexivity | exfalso | exfalso].
    all: apply Hno; exists o; split; [reflexivity | congruence].
  - intros o -> Hp. destruct (p o); [contradiction | reflexivity | reflexivity].
Qed.

(** Whatever options the caller hands over, git runs with them spread
    over the defaults: a property the options object of the caller has is
    the caller's, be its value undefined; the success exit codes are {0}
    when the object has no successExitCodes; the expected errors are the
    empty set when it has no expectedErrors; and when it has no
    maxBuffer, that is Infinity if the encoding is 'buffer' and
    kStringMaxLength otherwise. *)
Theorem git_default_options :
  forall (args : list string) (path name : string)
         (options : option IGitExecutionOptions),
    exists (opts : IGitExecutionOptions) (rest : list Event),
      trace (git args path name options) = Spawned args path opts :: rest
      /\ (~ supplies options successExitCodes ->
          successExitCodes opts = Present {[ 0%Z ]})
      /\ (~ supplies options expectedErrors ->
          expectedErrors opts = Present ∅)
      /\ (~ supplies options maxBuffer ->
          read_optional options encoding = Some buffer ->
          maxBuffer opts = Present Infinity)
      /\ (~ supplies options maxBuffer ->
          read_optional options encoding <> Some buffer ->
          maxBuffer opts = Present (Finite kStringMaxLength))
      /\ (forall o, options = Some o ->
            (successExitCodes o <> Absent ->
             successExitCodes opts = successExitCodes o)
            /\ (expectedErrors o <> Absent ->
                expectedErrors opts = expectedErrors o)
            /\ (maxBuffer o <> Absent -> maxBuffer opts = maxBuffer o)).
Proof.
  intros args path name options.
  destruct (git_spawns args path name options) as [rest Htrace].
  exists (spawn_options path options), rest.
  split; [exact Htrace |].
  cbn [spawn_options with_env successExitCodes expectedErrors maxBuffer].
  unfold merged_options.
  assert (Hcodes : successExitCodes (spread_options (defaultOptions options) options)
                   = match options with
                     | Some o => spread (Present {[ 0%Z ]}) (successExitCodes o)
                     | None => Present {[ 0%Z ]}
                     end) by (destruct options; reflexivity).
  assert (Herrors : expectedErrors (spread_options (defaultOptions options) options)
                    = match options with
                      | Some o => spread (Present ∅) (expectedErrors o)
                      | None => Present ∅
                      end) by (destruct options; reflexivity).
  assert (Hbuffer : maxBuffer (spread_options (defaultOptions options) options)
                    = match options with
                      | Some o =>
                          spread (Present (if encoding_is_buffer options
                                           then Infinity
                                           else Finite kStringMaxLength))
                                 (maxBuffer o)
                      | None =>
                          Present (if encoding_is_buffer options then Infinity
                                   else Finite kStringMaxLength)
                      end) by (destruct options; reflexivity).
  rewrite Hcodes, Herrors, Hbuffer.
  split; [apply spread_default |]. split; [apply spread_default |].
  split; [| split].
  - intros Hno Hencoding.
    rewrite (proj1 (spread_default options maxBuffer _) Hno).
    unfold encoding_is_buffer. rewrite Hencoding. reflexivity.
  - intros Hno Hencoding.
    rewrite (proj1 (spread_default options maxBuffer _) Hno).
    unfold encoding_is_buffer.
    destruct (read_optional options encoding) as [[| name'] |];
      [contradiction | reflexivity | reflexivity].
  - intros o Ho. repeat split; intros Hp.
    + exact (proj2 (spread_default options successExitCodes _) o Ho Hp).
    + exact (proj2 (spread_default options expectedErrors _) o Ho Hp).
    + exact (proj2 (spread_default options maxBuffer _) o Ho Hp).
Qed.

(** C8, amended: when the call of the subprocess itself fails (exec
    rejects), git throws an error that is no GitError and the classifier
    is never called; when the failure is an errno exception thrown by
    Node.js itself, as opposed to an error of dugite, the error is a
    plain one whose message is 'Failed to execute <name>: <code>'. *)
Theorem git_spawn_failure :
  forall (args : list string) (path name : string)
         (options : option IGitExecutionOptions) (err : ExecRejection),
    exec args path (spawn_options path options) = Rejects err ->
    (forall code : string,
        err = ErrnoException code ->
        outcome (git args path name options)
        = Abrupt (Error ("Failed to execute " +:+ name +:+ ": " +:+ code)))
    /\ (forall e : GitError,
           outcome (git args path name options) <> Abrupt (ThrownGitError e))
    /\ forall text : string,
        Classified text ∉ trace (git args path name options).
Proof.
  intros args path name options err Hexec.
  rewrite (git_rejects args path name options _ Hexec).
  cbn [outcome trace fst snd]. split; [| split].
  - intros code ->. reflexivity.
  - intros e Hthrown. injection Hthrown as Hthrown.
    exact (rejection_thrown_no_GitError name err e Hthrown).
  - intros text Hin. apply list_elem_of_singleton in Hin. discriminate Hin.
Qed.

(** A failure the classifier reads as a locked config file, and the
    caller does not expect, is thrown as a GitError that
    [isConfigFileLockError] recognizes and that has no description. *)
Lemma git_throws_config_lock_error (args : list string) (path name : string)
    (options : option IGitExecutionOptions) (r : DugiteResult)
    (terminalOutput : string) :
  exec args path (spawn_options path options) = Resolves r terminalOutput ->
  ~ returns_normally (git args path name options) ->
  classified r = Some ConfigLockFileAlreadyExists ->
  exists e : GitError,
    outcome (git args path name options) = Abrupt (ThrownGitError e)
    /\ isConfigFileLockError (ThrownGitError e) = true
    /\ gitErrorDescription (result e) = None.
Proof.
  intros Hexec Hno Hclassified.
  rewrite (git_resolves args path name options r terminalOutput Hexec) in *.
  rewrite settle_throws.
  2: { intros (res & Hres). apply Hno. exists res. exact Hres. }
  eexists. split; [reflexivity |]. rewrite Hclassified.
  unfold isConfigFileLockError.
  rewrite (proj1 (new_GitError_keeps _ _ _)). split; reflexivity.
Qed.

End GitProperties.

(** ** The orchestrator at concrete inputs *)

(** C1 as stated fails. A [git log] whose output outgrows the buffer
    completes otherwise than by returning a result, and what git throws
    is an error of dugite's kind, not a GitError. And the GitError thrown
    for a [git status] outside a repository is the same whatever the
    terminal output was: the description takes its place as the message,
    and no other field keeps it. *)
Lemma git_completes_without_GitError_or_snapshot :
  (~ returns_normally
       (Sample.git (Rejects Cases.buffer_overflow) ["log"] "/repo"
                   "getCommits" None)
   /\ forall e : GitError,
       outcome (Sample.git (Rejects Cases.buffer_overflow) ["log"] "/repo"
                           "getCommits" None)
       <> Abrupt (ThrownGitError e))
  /\ outcome (Sample.git (Resolves Sample.not_a_repository "fatal: first")
                         ["status"] "/repo" "status" None)
     = outcome (Sample.git (Resolves Sample.not_a_repository "fatal: second")
                           ["status"] "/repo" "status" None).
Proof.
  split; [split | reflexivity].
  - intros (res & Hres). discriminate Hres.
  - intros e He. discriminate He.
Qed.

(** The policy at a [git status] outside a repository, under the default
    options: the classified error is not expected, and git throws. *)
Lemma git_return_policy_witness :
  ~ returns_normally
      (Sample.git (Resolves Sample.not_a_repository "") ["status"] "/repo"
                  "status" None)
  /\ exists e : GitError,
      outcome
        (Sample.git (Resolves Sample.not_a_repository "") ["status"] "/repo"
                    "status" None)
      = Abrupt (ThrownGitError e)
      /\ e = @new_GitError (Sample.imports (Resolves Sample.not_a_repository ""))
               (@result_of (Sample.imports (Resolves Sample.not_a_repository ""))
                  "/repo" Sample.not_a_repository
                  (@classified
                     (Sample.imports (Resolves Sample.not_a_repository ""))
                     Sample.not_a_repository))
               ["status"] ""
      /\ result e
         = @result_of (Sample.imports (Resolves Sample.not_a_repository ""))
             "/repo" Sample.not_a_repository
             (@classified (Sample.imports (Resolves Sample.not_a_repository ""))
                Sample.not_a_repository)
      /\ args e = ["status"].
Proof.
  assert (Hno : ~ returns_normally
                    (Sample.git (Resolves Sample.not_a_repository "")
                                ["status"] "/repo" "status" None)).
  { intros (res & Hres). discriminate Hres. }
  split; [exact Hno |].
  refine (proj2 (@git_return_policy
                   (Sample.imports (Resolves Sample.not_a_repository ""))
                   ["status"] "/repo" "status" None _ _)
                Sample.not_a_repository "" eq_refl Hno).
  - intros (o & Ho & _). discriminate Ho.
  - intros (o & Ho & _). discriminate Ho.
Defined.

(** The GitError of that run, written out. *)
Example git_status_outside_repository :
  outcome (Sample.git (Resolves Sample.not_a_repository "") ["status"] "/repo"
                      "status" None)
  = Abrupt (ThrownGitError
              {| message := "这不是 Git 仓库。";
                 result := Sample.not_a_repository_result;
                 args := ["status"];
                 isRawMessage := false |}).
Proof. reflexivity. Qed.


(** C3 as stated fails: a fetch that exits with 128 and that the
    classifier does not know has written to stdout and to stderr; the
    terminal output holds both, and the message of the GitError is the
    terminal output, not the text of stderr, which is not empty. *)
Lemma git_failure_message_is_terminal_output :
  ~ @in_success_set
      (Sample.imports (Resolves Sample.odd_failure Sample.odd_terminal)) None 128
  /\ @classified
       (Sample.imports (Resolves Sample.odd_failure Sample.odd_terminal))
       Sample.odd_failure
     = None
  /\ length_of (dugite_stderr Sample.odd_failure) <> 0
  /\ exists e : GitError,
      outcome (Sample.git (Resolves Sample.odd_failure Sample.odd_terminal)
                          ["fetch"] "/repo" "fetch" None)
      = Abrupt (ThrownGitError e)
      /\ message e = Sample.odd_terminal
      /\ message e
         <> "fatal: the remote end hung up in an odd way" +:+ Sample.nl.
Proof.
  repeat split.
  - intros (codes & Hcodes & Hin). injection Hcodes as <-.
    apply elem_of_singleton in Hin. discriminate Hin.
  - vm_compute. discriminate.
  - eexists. split; [vm_compute; reflexivity |]. split; [reflexivity |].
    vm_compute. discriminate.
Qed.

(** The same fetch with no terminal output: the message is stderr. *)
Lemma git_unclassified_failure_message_witness :
  exists e : GitError,
    outcome (Sample.git (Resolves Sample.odd_failure "") ["fetch"] "/repo"
                        "fetch" None)
    = Abrupt (ThrownGitError e)
    /\ ("" <> "" -> message e = "")
    /\ ("" = "" -> length_of (dugite_stderr Sample.odd_failure) <> 0 ->
        message e = "fatal: the remote end hung up in an odd way" +:+ Sample.nl)
    /\ ("" = "" -> length_of (dugite_stderr Sample.odd_failure) = 0 ->
        length_of (dugite_stdout Sample.odd_failure) <> 0 ->
        message e = "Enumerating objects: 5, done." +:+ Sample.nl)
    /\ ("" = "" -> length_of (dugite_stderr Sample.odd_failure) = 0 ->
        length_of (dugite_stdout Sample.odd_failure) = 0 ->
        message e = "Unknown error (exit code " +:+ pretty 128%Z +:+ ")").
Proof.
  refine (@git_unclassified_failure_message
            (Sample.imports (Resolves Sample.odd_failure ""))
            ["fetch"] "/repo" "fetch" None Sample.odd_failure "" eq_refl _ eq_refl).
  intros (codes & Hcodes & Hin). injection Hcodes as <-.
  apply elem_of_singleton in Hin. discriminate Hin.
Defined.

(** C4 as stated fails: a caller that passes [{ env: { TERM:
    'xterm-256color' } }] has the subprocess spawned with that TERM, not
    with 'dumb'. *)
Lemma git_passes_TERM_of_caller :
  spawned_env
    (trace (Sample.git (Resolves Sample.status_ok "") ["status"] "/repo"
                       "status" (Some Sample.with_terminal)))
  ≫= (.!! "TERM")
  = Some "xterm-256color".
Proof. vm_compute. reflexivity. Qed.

(** A [git status] for which Node itself throws an errno exception. *)
Lemma git_spawn_failure_witness :
  (forall code : string,
      ErrnoException "ENOENT" = ErrnoException code ->
      outcome (Sample.git (Rejects (ErrnoException "ENOENT")) ["status"] "/repo"
                          "status" None)
      = Abrupt (Error ("Failed to execute " +:+ "status" +:+ ": " +:+ code)))
  /\ (forall e : GitError,
         outcome (Sample.git (Rejects (ErrnoException "ENOENT")) ["status"]
                             "/repo" "status" None)
         <> Abrupt (ThrownGitError e))
  /\ forall text : string,
      Classified text
      ∉ trace (Sample.git (Rejects (ErrnoException "ENOENT")) ["status"] "/repo"
                          "status" None).
Proof.
  exact (@git_spawn_failure (Sample.imports (Rejects (ErrnoException "ENOENT")))
           ["status"] "/repo" "status" None (ErrnoException "ENOENT") eq_refl).
Defined.

(** C8 as stated fails: no git binary is found, dugite rejects with its
    ExecError around the ENOENT of Node, and git passes that error on as
    it is; what the caller catches is not the error with the message
    'Failed to execute status: ENOENT'. *)
Lemma git_keeps_spawn_failure_of_dugite :
  outcome (Sample.git (Rejects Cases.missing_binary) ["status"] "/repo"
                      "status" None)
  = Abrupt (Rethrown Cases.missing_binary)
  /\ outcome (Sample.git (Rejects Cases.missing_binary) ["status"] "/repo"
                         "status" None)
     <> Abrupt (Error "Failed to execute status: ENOENT").
Proof. split; [reflexivity | discriminate]. Qed.

(** C7 at the failing inputs. A caller that passes
    [{ successExitCodes: undefined }] does not get the default {0}: exec
    receives the property with the value undefined, and a [git status]
    that exits with 0 ends in a GitError. In the same way a caller that
    passes [{ expectedErrors: undefined }] does not get the empty set:
    exec receives undefined, and git returns the result of a
    [git status] that failed with NotAGitRepository. *)
Lemma git_undefined_option_replaces_default :
  (successExitCodes
     (@spawn_options Sample.at_rest "/repo" (Some Cases.no_success_codes))
   = Undefined
   /\ exists e : GitError,
       outcome (Sample.git (Resolves Sample.status_ok "") ["status"] "/repo"
                           "status" (Some Cases.no_success_codes))
       = Abrupt (ThrownGitError e)
       /\ exitCode (result e) = 0%Z)
  /\ expectedErrors
       (@spawn_options Sample.at_rest "/repo" (Some Sample.no_expected_errors))
     = Undefined
  /\ outcome (Sample.git (Resolves Sample.not_a_repository "") ["status"]
                         "/repo" "status" (Some Sample.no_expected_errors))
     = Normal Sample.not_a_repository_result.
Proof.
  split; [split; [reflexivity |] | split; reflexivity].
  eexists. split; reflexivity.
Qed.

(** ** The lock-file pattern, line by line *)

Lemma lines_cons (c : ascii) (s1 : string) :
  lines (String c s1)
  = match line_terminator (String c s1) with
    | Some rest => "" :: lines rest
    | None => push c (lines s1)
    end.
Proof.
  cbn [lines line_terminator].
  destruct (is_newline c); [reflexivity |].
  destruct (Ascii.eqb c "226"); [| reflexivity].
  destruct s1 as [| c2 [| c3 s3]]; try reflexivity.
  destruct (is_separator_tail c2 c3); reflexivity.
Qed.

Lemma exec_from_cons (line_start : bool) (c : ascii) (s1 : string) :
  exec_from line_start (String c s1)
  = match (if line_start then match_here (String c s1) else None) with
    | Some group => Some group
    | None =>
        match line_terminator (String c s1) with
        | Some rest => exec_from true rest
        | None => exec_from false s1
        end
    end.
Proof.
  cbn [exec_from line_terminator].
  destruct (if line_start then match_here (String c s1) else None);
    [reflexivity |].
  destruct (is_newline c); [reflexivity |].
  destruct (Ascii.eqb c "226"); [| reflexivity].
  destruct s1 as [| c2 [| c3 s3]]; try reflexivity.
  destruct (is_separator_tail c2 c3); reflexivity.
Qed.

(** A LineTerminator is a non-empty piece at the head of the text. *)
Lemma line_terminator_split (s rest : string) :
  line_terminator s = Some rest ->
  exists t, s = t +:+ rest /\ String.length t <> 0.
Proof.
  destruct s as [| c s1]; cbn [line_terminator]; [discriminate |].
  destruct (is_newline c).
  { intros [= <-]. exists (String c ""). split; [reflexivity | discriminate]. }
  destruct (Ascii.eqb c "226"); [| discriminate].
  destruct s1 as [| c2 [| c3 s3]]; try discriminate.
  destruct (is_separator_tail c2 c3); [| discriminate].
  intros [= <-]. exists (String c (String c2 (String c3 ""))).
  split; [reflexivity | discriminate].
Qed.

Lemma append_cons (c : ascii) (s t : string) :
  String c s +:+ t = String c (s +:+ t).
Proof. reflexivity. Qed.

Lemma length_append (s t : string) :
  String.length (s +:+ t) = String.length s + String.length t.
Proof.
  induction s as [| c s IH]; [reflexivity |].
  rewrite append_cons. cbn [String.length]. rewrite IH. reflexivity.
Qed.

(** Induction along a text, one character at a time, a LineTerminator
    counting as one. *)
Lemma line_ind (P : string -> Prop) :
  P "" ->
  (forall c s1 rest,
      line_terminator (String c s1) = Some rest -> P rest -> P (String c s1)) ->
  (forall c s1,
      line_terminator (String c s1) = None -> P s1 -> P (String c s1)) ->
  forall s, P s.
Proof.
  intros Hnil Hterm Hchar s.
  remember (String.length s) as n eqn:Hn.
  revert s Hn. induction n as [n IH] using lt_wf_ind. intros s Hn.
  destruct s as [| c s1]; [exact Hnil |].
  destruct (line_terminator (String c s1)) as [rest |] eqn:Hlt.
  - apply (Hterm c s1 rest Hlt).
    destruct (line_terminator_split _ _ Hlt) as (t & Hs & Ht).
    apply (IH (String.length rest)); [| reflexivity].
    rewrite Hn, Hs, length_append. lia.
  - apply (Hchar c s1 Hlt). apply (IH (String.length s1)); [| reflexivity].
    rewrite Hn. cbn. lia.
Qed.

Lemma first_line_cons (c : ascii) (s1 : string) :
  first_line (String c s1)
  = match line_terminator (String c s1) with
    | Some _ => ""
    | None => String c (first_line s1)
    end.
Proof.
  unfold first_line. rewrite lines_cons.
  destruct (line_terminator (String c s1)); [reflexivity |].
  destruct (lines s1); reflexivity.
Qed.

Lemma tail_lines_cons (c : ascii) (s1 : string) :
  line_terminator (String c s1) = None ->
  tail (lines (String c s1)) = tail (lines s1).
Proof.
  intros Hlt. rewrite lines_cons, Hlt. destruct (lines s1); reflexivity.
Qed.

(** [$] holds where the line ahead is empty. *)
Lemma line_end_first_line (s : string) :
  line_end s = String.eqb (first_line s) "".
Proof.
  destruct s as [| c s1]; [reflexivity |].
  rewrite first_line_cons. cbn [line_end].
  destruct (line_terminator (String c s1)); reflexivity.
Qed.

Lemma inert_no_terminator (c : ascii) (s : string) :
  inert c = true -> line_terminator (String c s) = None.
Proof.
  unfold inert. cbn [line_terminator].
  destruct (is_newline c); [discriminate |].
  destruct (Ascii.eqb c "226"); [discriminate | reflexivity].
Qed.

Lemma strip_prefix_Some (p s r : string) :
  strip_prefix p s = Some r -> s = p +:+ r.
Proof.
  revert s. induction p as [| a p IH]; intros s; cbn.
  - intros [= ->]. reflexivity.
  - destruct s as [| b s]; [discriminate |].
    destruct (Ascii.eqb_spec a b) as [-> | Hne]; [| discriminate].
    intros Hs. rewrite (IH s Hs). reflexivity.
Qed.

Lemma strip_prefix_app (p r : string) : strip_prefix p (p +:+ r) = Some r.
Proof.
  induction p as [| a p IH]; [reflexivity |].
  rewrite append_cons. cbn [strip_prefix]. rewrite Ascii.eqb_refl. exact IH.
Qed.

(** A prefix of inert characters lies on the first line. *)
Lemma strip_prefix_first_line (p s : string) :
  all_inert p = true ->
  strip_prefix p (first_line s) = first_line <$> strip_prefix p s.
Proof.
  revert s. induction p as [| a p IH]; intros s Hp; [reflexivity |].
  cbn in Hp. apply andb_true_iff in Hp as [Ha Hp].
  destruct s as [| b s]; [reflexivity |].
  rewrite first_line_cons. cbn [strip_prefix].
  destruct (Ascii.eqb_spec a b) as [<- | Hne].
  - rewrite (inert_no_terminator a s Ha). cbn [strip_prefix].
    rewrite Ascii.eqb_refl. apply IH. exact Hp.
  - destruct (line_terminator (String b s)); [reflexivity |].
    cbn [strip_prefix]. destruct (Ascii.eqb_spec a b); [contradiction |].
    reflexivity.
Qed.

Lemma strip_prefix_nothing_left (p l : string) :
  strip_prefix p l = Some "" <-> l = p.
Proof.
  split.
  - intros H. apply strip_prefix_Some in H. rewrite H.
    clear H. induction p as [| a p IH]; [reflexivity |].
    rewrite append_cons, IH. reflexivity.
  - intros ->. induction p as [| a p IH]; cbn; [reflexivity |].
    rewrite Ascii.eqb_refl. exact IH.
Qed.

Lemma strip_suffix_unfold (suffix l : string) :
  strip_suffix suffix l
  = if String.eqb l suffix then Some ""
    else match l with
         | EmptyString => None
         | String c l' => String c <$> strip_suffix suffix l'
         end.
Proof. destruct l; reflexivity. Qed.

Lemma strip_suffix_Some (suffix l g : string) :
  strip_suffix suffix l = Some g -> l = g +:+ suffix.
Proof.
  revert g. induction l as [| c l IH]; intros g; rewrite strip_suffix_unfold.
  - destruct (String.eqb_spec "" suffix) as [<- | Hne]; [| discriminate].
    intros [= <-]. reflexivity.
  - destruct (String.eqb_spec (String c l) suffix) as [<- | Hne].
    + intros [= <-]. reflexivity.
    + destruct (strip_suffix suffix l) as [g' |]; [| discriminate].
      intros [= <-]. rewrite append_cons, (IH g' eq_refl). reflexivity.
Qed.

Lemma strip_suffix_app (suffix g : string) :
  strip_suffix suffix (g +:+ suffix) = Some g.
Proof.
  induction g as [| c g IH]; rewrite strip_suffix_unfold.
  - change ("" +:+ suffix) with suffix. rewrite String.eqb_refl. reflexivity.
  - rewrite append_cons.
    destruct (String.eqb_spec (String c (g +:+ suffix)) suffix) as [Heq | Hne].
    + exfalso. apply (f_equal String.length) in Heq.
      cbn [String.length] in Heq. rewrite length_append in Heq. lia.
    + rewrite IH. reflexivity.
Qed.

(** The lazy group takes the line up to its final [": File exists"]. *)
Lemma lazy_group_first_line (s : string) :
  lazy_group s = strip_suffix lock_suffix (first_line s).
Proof.
  induction s as [| c s1 IH]; [reflexivity |].
  rewrite strip_suffix_unfold.
  assert (Hstop :
            String.eqb (first_line (String c s1)) lock_suffix
            = match strip_prefix lock_suffix (String c s1) with
              | Some ahead => line_end ahead
              | None => false
              end).
  { pose proof (strip_prefix_first_line lock_suffix (String c s1) eq_refl) as Hp.
    pose proof (strip_prefix_nothing_left lock_suffix (first_line (String c s1)))
      as Hnothing.
    rewrite Hp in Hnothing.
    destruct (strip_prefix lock_suffix (String c s1)) as [ahead |].
    - rewrite line_end_first_line. cbn [fmap option_fmap option_map] in Hnothing.
      destruct (String.eqb_spec (first_line ahead) "") as [Hempty | Hfull].
      + apply String.eqb_eq. apply Hnothing. rewrite Hempty. reflexivity.
      + apply String.eqb_neq. intros Heq. apply Hnothing in Heq.
        injection Heq as Heq. contradiction.
    - apply String.eqb_neq. intros Heq. apply Hnothing in Heq.
      discriminate Heq. }
  rewrite Hstop. rewrite first_line_cons.
  cbn [lazy_group]. fold lazy_group.
  destruct (strip_prefix lock_suffix (String c s1)) as [ahead |];
    [destruct (line_end ahead); [reflexivity |] |].
  all: destruct (line_terminator (String c s1)); cbn [not_null];
    [reflexivity | rewrite IH; reflexivity].
Qed.

(** At the head of a text the pattern sees the first line only. *)
Lemma match_here_first_line (s : string) :
  match_here s = lock_file_of_line (first_line s).
Proof.
  unfold match_here, lock_file_of_line.
  rewrite (strip_prefix_first_line lock_prefix s eq_refl).
  destruct (strip_prefix lock_prefix s) as [[| c s1] |]; try reflexivity.
  cbn [fmap option_fmap option_map]. rewrite first_line_cons.
  destruct (line_terminator (String c s1)); cbn [not_null]; [reflexivity |].
  rewrite lazy_group_first_line. reflexivity.
Qed.

(** The scan yields the file of the first line that names one, the line
    under way counting only when the scan stands at its start. *)
Lemma exec_from_lines (s : string) :
  forall line_start : bool,
    exec_from line_start s
    = first_lock_file (if line_start then lines s else tail (lines s)).
Proof.
  induction s as [| c s1 rest Hlt IH | c s1 Hlt IH] using line_ind;
    intros line_start.
  - destruct line_start; reflexivity.
  - rewrite exec_from_cons, Hlt, match_here_first_line, first_line_cons, Hlt.
    rewrite lines_cons, Hlt, (IH true).
    destruct line_start; reflexivity.
  - rewrite exec_from_cons, Hlt, match_here_first_line, (IH false).
    rewrite <- (tail_lines_cons c s1 Hlt).
    destruct line_start; [| reflexivity].
    unfold first_line. destruct (lines (String c s1)) as [| l more];
      [reflexivity |].
    cbn [hd tail first_lock_file].
    destruct (lock_file_of_line l); reflexivity.
Qed.

(** The pattern finds the file of the first line of the form
    [lock_line file]. *)
Lemma lockFilePathRe_exec_lines (s : string) :
  lockFilePathRe_exec s = first_lock_file (lines s).
Proof. apply (exec_from_lines s true). Qed.

Lemma lock_file_of_line_Some (l file : string) :
  lock_file_of_line l = Some file <-> l = lock_line file /\ file <> "".
Proof.
  unfold lock_file_of_line, lock_line. split.
  - destruct (strip_prefix lock_prefix l) as [[| c rest] |] eqn:Hprefix;
      try discriminate.
    destruct (strip_suffix lock_suffix rest) as [g |] eqn:Hsuffix;
      [| discriminate].
    intros [= <-]. apply strip_prefix_Some in Hprefix.
    apply strip_suffix_Some in Hsuffix. subst rest. subst l.
    split; [reflexivity | discriminate].
  - intros [-> Hfile]. rewrite strip_prefix_app.
    destruct file as [| c file]; [contradiction |].
    rewrite append_cons, strip_suffix_app. reflexivity.
Qed.

Lemma first_lock_file_None (ls : list string) :
  (forall l file, l ∈ ls -> file <> "" -> l <> lock_line file) ->
  first_lock_file ls = None.
Proof.
  induction ls as [| l more IH]; intros Hnone; [reflexivity |].
  cbn [first_lock_file].
  destruct (lock_file_of_line l) as [file |] eqn:Hl.
  - apply lock_file_of_line_Some in Hl as [Hl Hfile].
    exfalso. apply (Hnone l file); [left | exact Hfile | exact Hl].
  - apply IH. intros l' file Hin. apply Hnone. right. exact Hin.
Qed.

Lemma first_lock_file_found (before after : list string) (file : string) :
  file <> "" ->
  Forall (fun l => forall other, other <> "" -> l <> lock_line other) before ->
  first_lock_file (before ++ lock_line file :: after) = Some file.
Proof.
  intros Hfile Hbefore. induction Hbefore as [| l before Hl Hbefore IH].
  - cbn [app first_lock_file].
    destruct (lock_file_of_line_Some (lock_line file) file) as [_ Hfound].
    rewrite Hfound; [reflexivity | split; [reflexivity | exact Hfile]].
  - cbn [app first_lock_file].
    destruct (lock_file_of_line l) as [other |] eqn:Hother; [| exact IH].
    apply lock_file_of_line_Some in Hother as [Hother Hne].
    exfalso. exact (Hl other Hne Hother).
Qed.

Lemma lines_nonempty (s : string) : lines s <> [].
Proof.
  destruct s as [| c s1]; [discriminate |].
  rewrite lines_cons.
  destruct (line_terminator (String c s1)); [discriminate |].
  destruct (lines s1); discriminate.
Qed.

Lemma append_assoc (s t u : string) : (s +:+ t) +:+ u = s +:+ t +:+ u.
Proof.
  induction s as [| c s IH]; [reflexivity |].
  rewrite !append_cons, IH. reflexivity.
Qed.

(** A line of a text is a piece of it, the first line a piece at its
    head. *)
Lemma lines_split (s : string) :
  forall (before : list string) (l : string) (after : list string),
    lines s = before ++ l :: after ->
    exists b a, s = b +:+ l +:+ a /\ (before = [] -> b = "").
Proof.
  induction s as [| c s1 rest Hlt IH | c s1 Hlt IH] using line_ind;
    intros before l after Hlines.
  - destruct before as [| l0 [| l1 before]]; try discriminate Hlines.
    injection Hlines as <- _. exists "", "". split; reflexivity.
  - rewrite lines_cons, Hlt in Hlines.
    destruct before as [| l0 before].
    + injection Hlines as <- _. exists "", (String c s1). split; reflexivity.
    + injection Hlines as _ Hrest.
      destruct (IH before l after Hrest) as (b & a & Hs & _).
      destruct (line_terminator_split _ _ Hlt) as (t & Ht & _).
      exists (t +:+ b), a. split; [| discriminate].
      rewrite Ht, Hs, append_assoc. reflexivity.
  - rewrite lines_cons, Hlt in Hlines.
    destruct (lines s1) as [| l0 more] eqn:Hs1.
    { exfalso. exact (lines_nonempty s1 Hs1). }
    cbn [push] in Hlines.
    destruct before as [| l1 before].
    + injection Hlines as <- <-.
      destruct (IH [] l0 more eq_refl) as (b & a & Hs & Hb).
      rewrite (Hb eq_refl) in Hs. exists "", a.
      split; [| reflexivity]. rewrite Hs. reflexivity.
    + injection Hlines as <- Hmore.
      destruct (IH (l0 :: before) l after) as (b & a & Hs & _).
      { rewrite Hmore. reflexivity. }
      exists (String c b), a. split; [| discriminate].
      rewrite Hs. reflexivity.
Qed.

(** The pattern of the classifier finds the line about [/r/.git/config]
    wherever it stands in a text. *)
Lemma config_lock_pattern_finds (b a : string) :
  config_lock_pattern
    (b +:+ "error: could not lock config file /r/.git/config: File exists" +:+ a)
  = true.
Proof.
  induction b as [| c b IH]; [reflexivity |].
  rewrite append_cons. cbn [config_lock_pattern]. rewrite IH.
  apply orb_true_r.
Qed.

(** A first-match table yields the code of an entry no earlier entry
    beats. *)
Lemma parseError_with_first (ahead behind : ClassifierTable)
    (pattern : string -> bool) (code : DugiteError) (text : string) :
  Forall (fun entry => fst entry text = false) ahead ->
  pattern text = true ->
  parseError_with (ahead ++ (pattern, code) :: behind) text = Some code.
Proof.
  intros Hahead Hpattern.
  induction Hahead as [| [p c] ahead Hp Hahead IH]; cbn [app parseError_with].
  - rewrite Hpattern. reflexivity.
  - cbn [fst] in Hp. rewrite Hp. exact IH.
Qed.

(** Resolving an absolute path ignores the directory it is resolved
    against. *)
Lemma posix_resolve_absolute (cwd from to : string) :
  is_absolute to = true ->
  posix_resolve cwd from to = posix_resolve "/" "" to.
Proof.
  intros Habsolute. unfold posix_resolve. cbn [gather].
  destruct to as [| c to]; [discriminate |].
  cbn [String.eqb]. rewrite Habsolute. reflexivity.
Qed.

Section LockFileProperties.

Context `{Imports}.

(** [parseConfigLockFilePathFromError] in terms of the lines of stderr. *)
Lemma parseConfigLockFilePathFromError_lines (result : IGitResult) :
  parseConfigLockFilePathFromError result
  = match first_lock_file (lines (coerceToString (stderr result))) with
    | None => None
    | Some file =>
        Some (Path_resolve (path result)
                ((if __WIN32__ then replace_first "/" "\" file else file)
                 +:+ ".lock"))
    end.
Proof.
  unfold parseConfigLockFilePathFromError.
  rewrite lockFilePathRe_exec_lines. reflexivity.
Qed.

(** With a line of the lock form in stderr, the result is the lock file
    of the first such line: its file, on a build for Windows with the
    first slash turned into a backslash, with [.lock] appended and
    resolved against the path of the result. *)
Lemma parseConfigLockFilePathFromError_first_lock_line (result : IGitResult)
    (before after : list string) (file : string) :
  file <> "" ->
  lines (coerceToString (stderr result)) = before ++ lock_line file :: after ->
  Forall (fun l => forall other, other <> "" -> l <> lock_line other) before ->
  parseConfigLockFilePathFromError result
  = Some (Path_resolve (path result)
            ((if __WIN32__ then replace_first "/" "\" file else file)
             +:+ ".lock")).
Proof.
  intros Hfile Hlines Hbefore.
  rewrite parseConfigLockFilePathFromError_lines, Hlines.
  rewrite (first_lock_file_found before after file Hfile Hbefore).
  reflexivity.
Qed.

(** C6, amended: when the first line of stderr of the form
    'error: could not lock config file <path>: File exists' is the one
    about /r/.git/config, a classifier whose table holds that pattern for
    the config-lock-file-already-exists code, with no entry ahead of it
    that matches, yields that code, and on a build that is not for
    Windows, where Path.resolve is the one of POSIX,
    parseConfigLockFilePathFromError returns the absolute path
    '/r/.git/config.lock': the path of the line with '.lock' appended,
    resolved against the path of the result. *)
Theorem config_lock_line_is_parsed :
  forall (ahead behind : ClassifierTable) (cwd : string) (result : IGitResult)
         (before after : list string),
    __WIN32__ = false ->
    Path_resolve = posix_resolve cwd ->
    Forall (fun entry => fst entry (coerceToString (stderr result)) = false)
           ahead ->
    lines (coerceToString (stderr result))
    = before
      ++ "error: could not lock config file /r/.git/config: File exists"
      :: after ->
    Forall (fun l => forall file, file <> "" -> l <> lock_line file) before ->
    parseError_with
      (ahead ++ (config_lock_pattern, ConfigLockFileAlreadyExists) :: behind)
      (coerceToString (stderr result))
    = Some ConfigLockFileAlreadyExists
    /\ parseConfigLockFilePathFromError result
       = Some (posix_resolve cwd (path result) ("/r/.git/config" +:+ ".lock"))
    /\ posix_resolve cwd (path result) ("/r/.git/config" +:+ ".lock")
       = "/r/.git/config.lock".
Proof.
  intros ahead behind cwd result before after Hwin32 Hresolve Hahead Hlines
    Hbefore.
  split; [| split].
  - apply parseError_with_first; [exact Hahead |].
    destruct (lines_split _ _ _ _ Hlines) as (b & a & Hs & _).
    rewrite Hs. apply config_lock_pattern_finds.
  - rewrite (parseConfigLockFilePathFromError_first_lock_line result before
               after "/r/.git/config");
      [| discriminate | exact Hlines | exact Hbefore].
    rewrite Hwin32, Hresolve. reflexivity.
  - rewrite posix_resolve_absolute; reflexivity.
Qed.

(** C10: when no line of stderr has the form
    'error: could not lock config file <path>: File exists' for a
    non-empty path (lines being what the LineTerminators of the pattern's
    multiline mode delimit), parseConfigLockFilePathFromError returns
    null; the function has no other outcome, nothing is thrown. *)
Theorem parseConfigLockFilePathFromError_without_lock_line :
  forall result : IGitResult,
    (forall l file : string,
        l ∈ lines (coerceToString (stderr result)) ->
        file <> "" ->
        l <> lock_line file) ->
    parseConfigLockFilePathFromError result = None.
Proof.
  intros result Hnone.
  rewrite parseConfigLockFilePathFromError_lines.
  rewrite (first_lock_file_None _ Hnone). reflexivity.
Qed.

End LockFileProperties.

(** ** The lock file at concrete inputs *)

(** C6 as stated fails: stderr holds the line about /r/.git/config, but
    after a line about another config file, and the path extracted is the
    lock file of that other file. *)
Lemma parseConfigLockFilePathFromError_takes_first_line :
  "error: could not lock config file /r/.git/config: File exists"
  ∈ lines (@coerceToString Sample.at_rest
             (stderr Sample.two_locks))
  /\ @parseConfigLockFilePathFromError Sample.at_rest Sample.two_locks
     = Some "/a/.git/config.lock".
Proof.
  split.
  - apply list_elem_of_In. vm_compute. right. left. reflexivity.
  - vm_compute. reflexivity.
Qed.

(** A stderr that is the line about /r/.git/config, against a table with
    an entry ahead of the pattern. *)
Lemma config_lock_line_is_parsed_witness :
  parseError_with
    ([(contains "Permission denied (publickey)", SSHAuthenticationFailed)]
     ++ (config_lock_pattern, ConfigLockFileAlreadyExists)
     :: [(contains "fatal: not a git repository", NotAGitRepository)])
    ("error: could not lock config file /r/.git/config: File exists"
     +:+ Sample.nl)
  = Some ConfigLockFileAlreadyExists
  /\ @parseConfigLockFilePathFromError Sample.at_rest Sample.one_lock
     = Some (posix_resolve "/" "/repo" ("/r/.git/config" +:+ ".lock"))
  /\ posix_resolve "/" "/repo" ("/r/.git/config" +:+ ".lock")
     = "/r/.git/config.lock".
Proof.
  refine (@config_lock_line_is_parsed Sample.at_rest
            [(contains "Permission denied (publickey)", SSHAuthenticationFailed)]
            [(contains "fatal: not a git repository", NotAGitRepository)]
            "/" Sample.one_lock [] [""] eq_refl eq_refl _ eq_refl _).
  - constructor; [reflexivity | constructor].
  - constructor.
Defined.

(** The stderr of a [git status] outside a repository has no such
    line. *)
Lemma parseConfigLockFilePathFromError_without_lock_line_witness :
  lines (@coerceToString Sample.at_rest
           (stderr Sample.not_a_repository_result))
  = ["fatal: not a git repository (or any of the parent directories): .git"; ""]
  /\ @parseConfigLockFilePathFromError Sample.at_rest
       Sample.not_a_repository_result
     = None.
Proof.
  split; [reflexivity |].
  apply (@parseConfigLockFilePathFromError_without_lock_line Sample.at_rest
           Sample.not_a_repository_result).
  intros l file Hin _ Heq.
  change (lines (@coerceToString Sample.at_rest
                   (stderr Sample.not_a_repository_result)))
    with ["fatal: not a git repository (or any of the parent directories): .git";
          ""] in Hin.
  apply list_elem_of_In in Hin. subst l.
  destruct Hin as [Hl | [Hl | []]]; discriminate Hl.
Defined.

(** ** More about the orchestrator *)

Section MoreGitProperties.

Context `{Imports}.

(** How [settle] throws. *)
Lemma settle_abrupt (args : list string) (path : string)
    (options : option IGitExecutionOptions) (r : DugiteResult)
    (terminalOutput : string) (t : Thrown) :
  outcome (settle args path options r terminalOutput) = Abrupt t ->
  t = ThrownGitError
        (new_GitError (result_of path r (classified r)) args terminalOutput)
  /\ acceptable_exit_code options r = false
  /\ not_null (classified r) && acceptable_error options (classified r) = false
  /\ trace (settle args path options r terminalOutput)
     = classifier_calls r
       ++ [Logged (logged_lines args r terminalOutput (classified r))].
Proof.
  unfold settle.
  destruct (acceptable_exit_code options r); [discriminate |].
  destruct (not_null (classified r) && acceptable_error options (classified r));
    [discriminate |].
  cbn [outcome trace fst snd]. intros [= <-]. repeat split.
Qed.

(** How [settle] returns. *)
Lemma settle_normal (args : list string) (path : string)
    (options : option IGitExecutionOptions) (r : DugiteResult)
    (terminalOutput : string) (res : IGitResult) :
  outcome (settle args path options r terminalOutput) = Normal res ->
  (acceptable_exit_code options r = true
   /\ res = result_of path r None
   /\ trace (settle args path options r terminalOutput) = [])
  \/ (acceptable_exit_code options r = false
      /\ (exists e, classified r = Some e
                    /\ acceptable_error options (Some e) = true)
      /\ res = result_of path r (classified r)
      /\ trace (settle args path options r terminalOutput) = classifier_calls r).
Proof.
  unfold settle.
  destruct (acceptable_exit_code options r).
  { cbn [outcome trace fst snd]. intros [= <-]. left. repeat split. }
  destruct (classified r) as [e |] eqn:Hclassified; cbn [not_null andb];
    [| discriminate].
  destruct (acceptable_error options (Some e)) eqn:Hacceptable; [| discriminate].
  cbn [outcome trace fst snd]. intros [= <-]. right.
  split; [reflexivity |]. split; [| split; reflexivity].
  exists e. split; [reflexivity | exact Hacceptable].
Qed.

Lemma classifier_calls_spawns (r : DugiteResult) :
  spawns (classifier_calls r) = []
  /\ logged_messages (classifier_calls r) = [].
Proof.
  unfold classifier_calls.
  destruct (parseError (coerceToString (dugite_stderr r))); split; reflexivity.
Qed.

Lemma classifier_calls_inputs (r : DugiteResult) :
  classifier_inputs (classifier_calls r)
  = coerceToString (dugite_stderr r)
    :: match parseError (coerceToString (dugite_stderr r)) with
       | Some _ => []
       | None => [coerceToString (dugite_stdout r)]
       end.
Proof.
  unfold classifier_calls.
  destruct (parseError (coerceToString (dugite_stderr r))); reflexivity.
Qed.


Lemma logged_messages_app (before after : list Event) :
  logged_messages (before ++ after)
  = logged_messages before ++ logged_messages after.
Proof. apply omap_app. Qed.

Lemma classifier_inputs_app (before after : list Event) :
  classifier_inputs (before ++ after)
  = classifier_inputs before ++ classifier_inputs after.
Proof. apply omap_app. Qed.

(** The events of [settle], whichever way it completes. *)
Lemma settle_trace (args : list string) (path : string)
    (options : option IGitExecutionOptions) (r : DugiteResult)
    (terminalOutput : string) :
  trace (settle args path options r terminalOutput)
  = if acceptable_exit_code options r then []
    else classifier_calls r
         ++ if not_null (classified r)
               && acceptable_error options (classified r)
            then []
            else [Logged (logged_lines args r terminalOutput (classified r))].
Proof.
  unfold settle.
  destruct (acceptable_exit_code options r); [reflexivity |].
  destruct (not_null (classified r) && acceptable_error options (classified r));
    cbn [trace snd]; [rewrite app_nil_r |]; reflexivity.
Qed.

(** The events of [git] when [exec] resolves. *)
Lemma git_resolves_trace (args : list string) (path name : string)
    (options : option IGitExecutionOptions) (r : DugiteResult)
    (terminalOutput : string) :
  exec args path (spawn_options path options) = Resolves r terminalOutput ->
  trace (git args path name options)
  = [Spawned args path (spawn_options path options)]
    ++ trace (settle args path options r terminalOutput).
Proof.
  intros Hexec.
  rewrite (git_resolves args path name options r terminalOutput Hexec).
  reflexivity.
Qed.


(** X2: after an exit code outside the success set the classifier reads
    stderr first and stdout only when stderr yields no code; a code found
    in stderr is the gitError of the result, whatever stdout holds. *)
Theorem git_classifies_stderr_first :
  forall (args : list string) (path name : string)
         (options : option IGitExecutionOptions) (r : DugiteResult)
         (terminalOutput : string),
    exec args path (spawn_options path options) = Resolves r terminalOutput ->
    ~ in_success_set options (dugite_exitCode r) ->
    classifier_inputs (trace (git args path name options))
    = match parseError (coerceToString (dugite_stderr r)) with
      | Some _ => [coerceToString (dugite_stderr r)]
      | None => [coerceToString (dugite_stderr r);
                 coerceToString (dugite_stdout r)]
      end
    /\ forall (res : IGitResult) (e : DugiteError),
        carries (git args path name options) res ->
        parseError (coerceToString (dugite_stderr r)) = Some e ->
        gitError res = Some e.
Proof.
  intros args path name options r terminalOutput Hexec Hcode.
  rewrite (git_resolves_trace args path name options r terminalOutput Hexec).
  rewrite (git_resolves args path name options r terminalOutput Hexec).
  rewrite <- acceptable_exit_code_spec in Hcode.
  apply not_true_is_false in Hcode. split.
  - rewrite classifier_inputs_app, settle_trace, Hcode, classifier_inputs_app,
      classifier_calls_inputs.
    destruct (not_null (classified r) && acceptable_error options (classified r));
      destruct (parseError (coerceToString (dugite_stderr r))); reflexivity.
  - intros res e Hcarries Hstderr.
    assert (Hclassified : classified r = Some e).
    { unfold classified. rewrite Hstderr. reflexivity. }
    unfold carries in Hcarries. cbn [outcome fst] in Hcarries.
    destruct Hcarries as [Hnormal | (g & Habrupt & <-)].
    + apply settle_normal in Hnormal
        as [(Hyes & _) | (_ & _ & -> & _)]; [congruence |].
      exact Hclassified.
    + apply settle_abrupt in Habrupt as (Ht & _). injection Ht as ->.
      rewrite (proj1 (new_GitError_keeps _ _ _)). exact Hclassified.
Qed.

Lemma logged_lines_unfold (args : list string) (path : string) (r : DugiteResult)
    (terminalOutput : string) :
  logged_lines args r terminalOutput (classified r)
  = [UnexpectedExitCode args (exitCode (result_of path r (classified r)))]
    ++ (if String.eqb terminalOutput "" then []
        else [TerminalTail terminalOutput (-1024)])
    ++ match gitError (result_of path r (classified r)) with
       | Some code =>
           [ParsedAs code (gitErrorDescription (result_of path r (classified r)))]
       | None => []
       end.
Proof.
  unfold logged_lines, result_of. cbn [exitCode gitError gitErrorDescription].
  destruct terminalOutput; destruct (classified r); reflexivity.
Qed.

(** X3: git passes its error message to log.error exactly when it
    throws a GitError, once, as the last thing before it throws: the
    first line names the arguments and the exit code, the line
    terminalOutput.slice(-1024) follows when the terminal output is not
    empty, and a line for the parsed error with its description when
    there is one. In a call that returns, or whose subprocess call is
    rejected, git does not log that message. (What the callback git
    installs logs of the errors of its stream is no part of the
    embedding.) *)
Theorem git_logs_what_it_throws :
  forall (argv : list string) (path name : string)
         (options : option IGitExecutionOptions),
    (forall e : GitError,
        outcome (git argv path name options) = Abrupt (ThrownGitError e) ->
        exists (r : DugiteResult) (terminalOutput : string)
               (errorMessage : list LogLine),
          exec argv path (spawn_options path options) = Resolves r terminalOutput
          /\ logged_messages (trace (git argv path name options))
             = [errorMessage]
          /\ last (trace (git argv path name options)) = Some (Logged errorMessage)
          /\ errorMessage
             = [UnexpectedExitCode argv (exitCode (result e))]
               ++ (if String.eqb terminalOutput "" then []
                   else [TerminalTail terminalOutput (-1024)])
               ++ match gitError (result e) with
                  | Some code => [ParsedAs code (gitErrorDescription (result e))]
                  | None => []
                  end)
    /\ ((forall e : GitError,
            outcome (git argv path name options) <> Abrupt (ThrownGitError e)) ->
        logged_messages (trace (git argv path name options)) = []).
Proof.
  intros argv path name options.
  destruct (exec argv path (spawn_options path options))
    as [r terminalOutput | err] eqn:Hexec.
  - rewrite (git_resolves_trace argv path name options r terminalOutput Hexec).
    rewrite (git_resolves argv path name options r terminalOutput Hexec).
    cbn [outcome fst]. split.
    + intros e Habrupt.
      apply settle_abrupt in Habrupt as (He & _ & _ & Htrace).
      injection He as ->.
      exists r, terminalOutput,
        (logged_lines argv r terminalOutput (classified r)).
      split; [reflexivity |]. rewrite Htrace.
      rewrite (proj1 (new_GitError_keeps _ _ _)).
      split; [| split].
      * rewrite !logged_messages_app, (proj2 (classifier_calls_spawns r)).
        reflexivity.
      * rewrite app_assoc. apply last_snoc.
      * apply logged_lines_unfold.
    + intros Hno. rewrite logged_messages_app, settle_trace.
      destruct (acceptable_exit_code options r) eqn:Hcode; [reflexivity |].
      rewrite logged_messages_app, (proj2 (classifier_calls_spawns r)).
      destruct (not_null (classified r)
                && acceptable_error options (classified r)) eqn:Herror;
        [reflexivity |].
      exfalso. eapply Hno. unfold settle. rewrite Hcode, Herror. reflexivity.
  - rewrite (git_rejects argv path name options err Hexec).
    cbn [outcome trace fst snd]. split.
    + intros e Habrupt. injection Habrupt as Habrupt.
      exfalso. exact (rejection_thrown_no_GitError name err e Habrupt).
    + intros _. reflexivity.
Qed.

(** X4: the result git returns, and the result inside a GitError git
    throws, is dugite's result with three fields added: stdout, stderr
    and the exit code are those of the subprocess, the path is the one of
    the call, a gitError is there only after an exit code outside the
    success set, and the description is the one the describer has for
    that gitError and that stderr, null when there is no gitError. *)
Theorem git_result_invariant :
  forall (argv : list string) (dir name : string)
         (options : option IGitExecutionOptions) (res : IGitResult),
    carries (git argv dir name options) res ->
    (exists (r : DugiteResult) (terminalOutput : string),
        exec argv dir (spawn_options dir options) = Resolves r terminalOutput
        /\ stdout res = dugite_stdout r
        /\ stderr res = dugite_stderr r
        /\ exitCode res = dugite_exitCode r)
    /\ path res = dir
    /\ (gitError res <> None -> ~ in_success_set options (exitCode res))
    /\ (gitError res = None -> gitErrorDescription res = None)
    /\ (forall e : DugiteError,
           gitError res = Some e ->
           getDescriptionForError (Member e) (coerceToString (stderr res))
           = Normal (gitErrorDescription res)).
Proof.
  intros argv dir name options res Hcarries.
  destruct (exec argv dir (spawn_options dir options))
    as [r terminalOutput | err] eqn:Hexec.
  - rewrite (git_resolves argv dir name options r terminalOutput Hexec)
      in Hcarries.
    unfold carries in Hcarries. cbn [outcome fst] in Hcarries.
    assert (Hres : exists code,
               res = result_of dir r code
               /\ (code <> None -> acceptable_exit_code options r = false)).
    { destruct Hcarries as [Hnormal | (g & Habrupt & <-)].
      - apply settle_normal in Hnormal
          as [(_ & -> & _) | (Hcode & _ & -> & _)].
        + exists None. split; [reflexivity | congruence].
        + exists (classified r). split; [reflexivity | intros _; exact Hcode].
      - apply settle_abrupt in Habrupt as (Ht & Hcode & _).
        injection Ht as ->. rewrite (proj1 (new_GitError_keeps _ _ _)).
        exists (classified r). split; [reflexivity | intros _; exact Hcode]. }
    destruct Hres as (code & -> & Hcode).
    cbn [result_of stdout stderr exitCode gitError gitErrorDescription
           path].
    split; [exists r, terminalOutput; repeat split |].
    split; [reflexivity |]. split; [| split].
    + intros Hsome Hin. apply acceptable_exit_code_spec in Hin.
      rewrite (Hcode Hsome) in Hin. discriminate Hin.
    + intros ->. reflexivity.
    + intros e ->. apply describe_member_eq.
  - rewrite (git_rejects argv dir name options err Hexec) in Hcarries.
    unfold carries in Hcarries. cbn [outcome fst] in Hcarries.
    destruct Hcarries as [Hnormal | (g & Habrupt & _)]; [discriminate Hnormal |].
    injection Habrupt as Habrupt.
    exfalso. exact (rejection_thrown_no_GitError name err _ Habrupt).
Qed.

(** X5: a failure the caller expects is data, not an exception: when the
    exit code is outside the success set and the classifier finds a code
    that is in the set of expected errors, git returns dugite's result
    with that code as gitError and with its description. *)
Theorem git_returns_expected_error :
  forall (argv : list string) (dir name : string)
         (options : option IGitExecutionOptions) (r : DugiteResult)
         (terminalOutput : string) (e : DugiteError),
    exec argv dir (spawn_options dir options) = Resolves r terminalOutput ->
    ~ in_success_set options (dugite_exitCode r) ->
    classified r = Some e ->
    in_expected_set options e ->
    outcome (git argv dir name options)
    = Normal {| stdout := dugite_stdout r;
                stderr := dugite_stderr r;
                exitCode := dugite_exitCode r;
                gitError := Some e;
                gitErrorDescription :=
                  description_of e (coerceToString (dugite_stderr r));
                path := dir |}.
Proof.
  intros argv dir name options r terminalOutput e Hexec Hcode Hclassified
    Hexpected.
  rewrite (git_resolves argv dir name options r terminalOutput Hexec).
  rewrite <- acceptable_exit_code_spec in Hcode.
  apply not_true_is_false in Hcode.
  assert (Herror : acceptable_error options (Some e) = true).
  { apply acceptable_error_spec. left. exact Hexpected. }
  unfold settle.
  rewrite Hcode, Hclassified, Herror. reflexivity.
Qed.

(** X6: a caller that passes successExitCodes with the value undefined
    has no success exit code at all, not the default 0: whatever the exit
    code, the classifier is consulted, and when it finds nothing git
    throws a GitError for that exit code. *)
Theorem git_successExitCodes_undefined :
  forall (argv : list string) (dir name : string) (o : IGitExecutionOptions)
         (r : DugiteResult) (terminalOutput : string),
    successExitCodes o = Undefined ->
    exec argv dir (spawn_options dir (Some o)) = Resolves r terminalOutput ->
    (forall code : Z, ~ in_success_set (Some o) code)
    /\ classifier_inputs (trace (git argv dir name (Some o))) <> []
    /\ (classified r = None ->
        exists e : GitError,
          outcome (git argv dir name (Some o)) = Abrupt (ThrownGitError e)
          /\ exitCode (result e) = dugite_exitCode r
          /\ gitError (result e) = None).
Proof.
  intros argv dir name o r terminalOutput Hundefined Hexec.
  assert (Hnone : forall code : Z, ~ in_success_set (Some o) code).
  { intros code (codes & Hcodes & _). unfold merged_options in Hcodes.
    cbn in Hcodes. rewrite Hundefined in Hcodes. discriminate Hcodes. }
  split; [exact Hnone |].
  rewrite (git_resolves_trace argv dir name (Some o) r terminalOutput Hexec).
  rewrite (git_resolves argv dir name (Some o) r terminalOutput Hexec).
  assert (Hcode : acceptable_exit_code (Some o) r = false).
  { apply not_true_is_false. rewrite acceptable_exit_code_spec. apply Hnone. }
  split.
  - rewrite classifier_inputs_app, settle_trace, Hcode, classifier_inputs_app,
      classifier_calls_inputs. discriminate.
  - intros Hclassified. unfold settle.
    rewrite Hcode, Hclassified. cbn [not_null andb outcome fst].
    eexists. split; [reflexivity |].
    rewrite (proj1 (new_GitError_keeps _ _ _)). split; reflexivity.
Qed.

(** X7: when exec rejects with an error that isMaxBufferExceededError
    accepts (the output of the subprocess exceeded maxBuffer), git throws
    dugite's kind of error again with the name of the operation appended
    to the message: stdout and stderr collected so far are kept, the
    cause is the original cause, or the error itself when it has none;
    the classifier is not consulted. *)
Theorem git_max_buffer_exceeded_names_operation :
  forall (argv : list string) (dir name : string)
         (options : option IGitExecutionOptions) (code : option string)
         (message : string) (out errput : Output) (cause : option string),
    exec argv dir (spawn_options dir options)
    = Rejects (DugiteExecError code message out errput cause) ->
    isMaxBufferExceededError (DugiteExecError code message out errput cause)
    = true ->
    (exists c : string + ExecRejection,
        outcome (git argv dir name options)
        = Abrupt (ExecError (message +:+ " for " +:+ name) out errput c)
        /\ (forall original : string, cause = Some original -> c = inl original)
        /\ (cause = None ->
            c = inr (DugiteExecError code message out errput None)))
    /\ classifier_inputs (trace (git argv dir name options)) = [].
Proof.
  intros argv dir name options code message out errput cause Hexec Hoverflow.
  rewrite (git_rejects argv dir name options _ Hexec).
  cbn [outcome trace fst snd rejection_thrown]. rewrite Hoverflow.
  split; [| reflexivity].
  eexists. split; [reflexivity |]. split.
  - intros original ->. reflexivity.
  - intros ->. reflexivity.
Qed.

(** X8: a rejection of the subprocess call that is neither an errno
    exception of Node nor a maxBuffer overflow, be it another error of
    dugite or anything else, reaches the caller of git as it is; the
    classifier is not consulted. *)
Theorem git_rethrows_other_rejections :
  forall (argv : list string) (dir name : string)
         (options : option IGitExecutionOptions) (err : ExecRejection),
    exec argv dir (spawn_options dir options) = Rejects err ->
    (forall code : string, err <> ErrnoException code) ->
    isMaxBufferExceededError err = false ->
    outcome (git argv dir name options) = Abrupt (Rethrown err)
    /\ classifier_inputs (trace (git argv dir name options)) = [].
Proof.
  intros argv dir name options err Hexec Herrno Hoverflow.
  rewrite (git_rejects argv dir name options _ Hexec).
  cbn [outcome trace fst snd]. split; [| reflexivity].
  destruct err as [code | code message out errput cause | message];
    cbn [rejection_thrown].
  - exfalso. exact (Herrno code eq_refl).
  - rewrite Hoverflow. reflexivity.
  - reflexivity.
Qed.

(** A description is never the empty string. *)
Lemma description_of_nonempty (e : DugiteError) (text d : string) :
  description_of e text = Some d -> d <> "".
Proof.
  unfold description_of, getDescriptionForError.
  destruct e; cbn [isAuthFailureError]; try discriminate.
  all: try (intros [= <-]; discriminate).
  destruct (parseBadConfigValueErrorInfo text); intros [= <-]; discriminate.
Qed.

(** X9: when git throws a GitError for a failure that has a description,
    the message of the error is that description and isRawMessage is
    false, whatever the subprocess wrote: the describer never yields an
    empty text, which the constructor would take for none. *)
Theorem git_described_failure_message :
  forall (argv : list string) (dir name : string)
         (options : option IGitExecutionOptions) (e : GitError) (d : string),
    outcome (git argv dir name options) = Abrupt (ThrownGitError e) ->
    gitErrorDescription (result e) = Some d ->
    message e = d /\ isRawMessage e = false /\ d <> "".
Proof.
  intros argv dir name options e d Habrupt Hd.
  destruct (exec argv dir (spawn_options dir options))
    as [r terminalOutput | err] eqn:Hexec.
  - rewrite (git_resolves argv dir name options r terminalOutput Hexec)
      in Habrupt.
    cbn [outcome fst] in Habrupt.
    apply settle_abrupt in Habrupt as (He & _). injection He as ->.
    rewrite (proj1 (new_GitError_keeps _ _ _)) in Hd.
    assert (Hnonempty : d <> "").
    { unfold result_of in Hd. cbn [gitErrorDescription] in Hd.
      destruct (classified r) as [code |]; [| discriminate Hd].
      exact (description_of_nonempty code _ d Hd). }
    assert (Hsource : taken_from (result_of dir r (classified r)) terminalOutput
                        ParsedDescription).
    { constructor. rewrite Hd. destruct d; [contradiction | reflexivity]. }
    destruct (new_GitError_by_source _ argv terminalOutput _ Hsource)
      as [Hmessage Hflag].
    rewrite Hmessage, Hflag. cbn [text_of verbatim]. rewrite Hd.
    repeat split. exact Hnonempty.
  - rewrite (git_rejects argv dir name options err Hexec) in Habrupt.
    injection Habrupt as Habrupt.
    exfalso. exact (rejection_thrown_no_GitError name err _ Habrupt).
Qed.

(** X10: of what git throws, isGitError (with no code) recognizes exactly
    the errors thrown after the subprocess ran to its exit; with a code,
    exactly those whose output the classifier read as that code; and
    isConfigFileLockError is isGitError with the code
    ConfigLockFileAlreadyExists. *)
Theorem git_throws_what_isGitError_tells :
  forall (argv : list string) (dir name : string)
         (options : option IGitExecutionOptions) (t : Thrown),
    outcome (git argv dir name options) = Abrupt t ->
    (isGitError t None = true
     <-> exists (r : DugiteResult) (terminalOutput : string),
           exec argv dir (spawn_options dir options) = Resolves r terminalOutput)
    /\ (forall code : DugiteError,
           isGitError t (Some code) = true
           <-> exists (r : DugiteResult) (terminalOutput : string),
                 exec argv dir (spawn_options dir options)
                 = Resolves r terminalOutput
                 /\ classified r = Some code)
    /\ isConfigFileLockError t = isGitError t (Some ConfigLockFileAlreadyExists).
Proof.
  intros argv dir name options t Habrupt.
  destruct (exec argv dir (spawn_options dir options))
    as [r terminalOutput | err] eqn:Hexec.
  - rewrite (git_resolves argv dir name options r terminalOutput Hexec)
      in Habrupt.
    cbn [outcome fst] in Habrupt.
    apply settle_abrupt in Habrupt as (-> & _).
    unfold isGitError, isConfigFileLockError.
    rewrite (proj1 (new_GitError_keeps _ _ _)). cbn [result_of gitError].
    split; [| split; [| reflexivity]].
    + split; [intros _; exists r, terminalOutput; reflexivity | reflexivity].
    + intros code. rewrite bool_decide_eq_true. split.
      * intros Hcode. exists r, terminalOutput. split; [reflexivity | exact Hcode].
      * intros (r' & t' & Heq & Hcode). injection Heq as <- <-. exact Hcode.
  - rewrite (git_rejects argv dir name options err Hexec) in Habrupt.
    cbn [outcome fst] in Habrupt. injection Habrupt as <-.
    pose proof (rejection_thrown_no_GitError name err) as Hno.
    unfold isGitError, isConfigFileLockError.
    destruct (rejection_thrown name err) as [m | m out errput c | e | other];
      try (exfalso; exact (Hno e eq_refl)).
    all: split; [| split; [| reflexivity]].
    all: try (split; [discriminate | intros (r & t' & Heq); discriminate Heq]).
    all: intros code; split;
      [discriminate | intros (r & t' & Heq & _); discriminate Heq].
Qed.

End MoreGitProperties.

(** ** More about the describer *)

Section MoreDescriberProperties.

Context `{Imports}.

(** X11: getDescriptionForError returns null for nine members of the
    enumeration, whatever stderr holds, and for every other member a
    description that is not empty. *)
Theorem getDescriptionForError_null_for_nine :
  forall (e : DugiteError) (text : string),
    (e ∈ undescribed -> getDescriptionForError (Member e) text = Normal None)
    /\ (e ∉ undescribed ->
        exists d : string,
          getDescriptionForError (Member e) text = Normal (Some d) /\ d <> "").
Proof.
  intros e text. unfold getDescriptionForError.
  destruct e; cbn [isAuthFailureError]; split; intros Hin;
    first
      [ reflexivity
      | exfalso; apply list_elem_of_In in Hin; cbn in Hin;
        repeat (destruct Hin as [Hin | Hin]; [discriminate Hin |]); exact Hin
      | exfalso; apply Hin; apply list_elem_of_In; cbn; tauto
      | eexists; split; [reflexivity | discriminate]
      | idtac ].
  destruct (parseBadConfigValueErrorInfo text); eexists;
    (split; [reflexivity | discriminate]).
Qed.

(** X12: the description depends on stderr for BadConfigValue only, and
    there only through what parseBadConfigValueErrorInfo reads in it. *)
Theorem getDescriptionForError_reads_stderr_for_BadConfigValue_only :
  forall (e : DugiteError) (text other : string),
    e <> BadConfigValue
    \/ parseBadConfigValueErrorInfo text = parseBadConfigValueErrorInfo other ->
    getDescriptionForError (Member e) text
    = getDescriptionForError (Member e) other.
Proof.
  intros e text other Hsame. unfold getDescriptionForError.
  destruct e; cbn [isAuthFailureError]; try reflexivity.
  destruct Hsame as [Hne | ->]; [contradiction | reflexivity].
Qed.

(** X13: the three authentication failures have one description between
    them, and no other member of the enumeration has it. *)
Theorem getDescriptionForError_of_authentication_failures :
  forall (e other : DugiteError) (text text' : string),
    isAuthFailureError (Member e) = true ->
    getDescriptionForError (Member other) text'
    = getDescriptionForError (Member e) text
    <-> isAuthFailureError (Member other) = true.
Proof.
  intros e other text text' Hauth.
  unfold getDescriptionForError. rewrite Hauth.
  destruct (isAuthFailureError (Member other)) eqn:Hother.
  { split; reflexivity. }
  split; [| discriminate]. intros Heq. exfalso.
  destruct __DARWIN__;
    destruct other; cbn [isAuthFailureError] in Hother;
    try discriminate Hother; try discriminate Heq.
  all: destruct (parseBadConfigValueErrorInfo text'); discriminate Heq.
Qed.

End MoreDescriberProperties.

(** ** More about the lock file *)

Lemma first_lock_file_Some (ls : list string) (file : string) :
  first_lock_file ls = Some file ->
  exists before after : list string,
    ls = before ++ lock_line file :: after
    /\ file <> ""
    /\ Forall (fun l => forall other, other <> "" -> l <> lock_line other) before.
Proof.
  induction ls as [| l more IH]; cbn [first_lock_file]; [discriminate |].
  destruct (lock_file_of_line l) as [found |] eqn:Hl.
  - intros [= ->]. apply lock_file_of_line_Some in Hl as [-> Hfile].
    exists [], more. split; [reflexivity |]. split; [exact Hfile | constructor].
  - intros Hmore. destruct (IH Hmore) as (before & after & -> & Hfile & Hbefore).
    exists (l :: before), after. split; [reflexivity |].
    split; [exact Hfile |]. constructor; [| exact Hbefore].
    intros other Hother Heq.
    destruct (lock_file_of_line_Some l other) as [_ Hfound].
    rewrite Hfound in Hl; [discriminate Hl | split; assumption].
Qed.

Lemma first_lock_file_elem (ls : list string) (l file : string) :
  l ∈ ls -> file <> "" -> l = lock_line file -> first_lock_file ls <> None.
Proof.
  intros Hin Hfile -> Hnone.
  induction ls as [| l more IH]; [inversion Hin |].
  cbn [first_lock_file] in Hnone.
  destruct (lock_file_of_line l) as [found |] eqn:Hl; [discriminate Hnone |].
  apply elem_of_cons in Hin as [<- | Hin]; [| exact (IH Hin Hnone)].
  destruct (lock_file_of_line_Some (lock_line file) file) as [_ Hfound].
  rewrite Hfound in Hl; [discriminate Hl | split; [reflexivity | exact Hfile]].
Qed.

Lemma free_of_app (c : ascii) (s t : string) :
  free_of c (s +:+ t) = free_of c s && free_of c t.
Proof.
  induction s as [| a s IH]; [reflexivity |].
  rewrite append_cons. cbn [free_of]. rewrite IH. apply andb_assoc.
Qed.

Lemma append_empty (s : string) : s +:+ "" = s.
Proof.
  induction s as [| a s IH]; [reflexivity |]. rewrite append_cons, IH.
  reflexivity.
Qed.

(** Only the first occurrence is replaced. *)
Lemma replace_first_app (a b : ascii) (s t : string) :
  free_of a s = true ->
  replace_first a b (s +:+ String a t) = s +:+ String b t.
Proof.
  induction s as [| c s IH]; intros Hfree.
  - change ("" +:+ String a t) with (String a t). cbn [replace_first].
    rewrite Ascii.eqb_refl. reflexivity.
  - cbn [free_of] in Hfree. apply andb_true_iff in Hfree as [Hc Hfree].
    rewrite !append_cons. cbn [replace_first].
    apply negb_true_iff in Hc. rewrite Hc, (IH Hfree). reflexivity.
Qed.

Section MoreLockFileProperties.

Context `{Imports}.

(** X14: parseConfigLockFilePathFromError returns a path exactly when
    some line of stderr has the form 'error: could not lock config file
    <file>: File exists' for a non-empty file, and the path is then the
    one for the first such line; gitError, stdout and the exit code of
    the result play no part. *)
Theorem parseConfigLockFilePathFromError_finds_first_lock_line :
  forall res : IGitResult,
    (forall p : string,
        parseConfigLockFilePathFromError res = Some p ->
        exists (before : list string) (file : string) (after : list string),
          lines (coerceToString (stderr res)) = before ++ lock_line file :: after
          /\ file <> ""
          /\ Forall (fun l => forall other, other <> "" -> l <> lock_line other)
                    before
          /\ p = Path_resolve (path res)
                   ((if __WIN32__ then replace_first "/" "\" file else file)
                    +:+ ".lock"))
    /\ ((exists l file : string,
            l ∈ lines (coerceToString (stderr res))
            /\ file <> ""
            /\ l = lock_line file) ->
        parseConfigLockFilePathFromError res <> None).
Proof.
  intros res. rewrite parseConfigLockFilePathFromError_lines. split.
  - intros p Hp.
    destruct (first_lock_file (lines (coerceToString (stderr res))))
      as [file |] eqn:Hfirst; [| discriminate Hp].
    injection Hp as <-.
    destruct (first_lock_file_Some _ _ Hfirst)
      as (before & after & Hlines & Hfile & Hbefore).
    exists before, file, after. repeat split; assumption.
  - intros (l & file & Hin & Hfile & Hl) Hnone.
    apply (first_lock_file_elem _ l file Hin Hfile Hl).
    destruct (first_lock_file (lines (coerceToString (stderr res))));
      [discriminate Hnone | reflexivity].
Qed.

(** X15: from the GitError git throws for a command whose stderr names a
    locked config file, parseConfigLockFilePathFromError extracts the
    lock file of the first line that names one, resolved against the path
    git was called with. *)
Theorem git_error_locates_lock_file :
  forall (argv : list string) (dir name : string)
         (options : option IGitExecutionOptions) (r : DugiteResult)
         (terminalOutput : string) (e : GitError)
         (before after : list string) (file : string),
    exec argv dir (spawn_options dir options) = Resolves r terminalOutput ->
    outcome (git argv dir name options) = Abrupt (ThrownGitError e) ->
    file <> "" ->
    lines (coerceToString (dugite_stderr r)) = before ++ lock_line file :: after ->
    Forall (fun l => forall other, other <> "" -> l <> lock_line other) before ->
    parseConfigLockFilePathFromError (result e)
    = Some (Path_resolve dir
              ((if __WIN32__ then replace_first "/" "\" file else file)
               +:+ ".lock")).
Proof.
  intros argv dir name options r terminalOutput e before after file Hexec
    Habrupt Hfile Hlines Hbefore.
  rewrite (git_resolves argv dir name options r terminalOutput Hexec) in Habrupt.
  cbn [outcome fst] in Habrupt.
  apply settle_abrupt in Habrupt as (He & _). injection He as ->.
  rewrite (proj1 (new_GitError_keeps _ _ _)).
  exact (parseConfigLockFilePathFromError_first_lock_line
           (result_of dir r (classified r)) before after file Hfile Hlines
           Hbefore).
Qed.

(** X16: on a build for Windows the file of the lock line goes to
    Path.resolve with its first forward slash turned into a backslash;
    the slashes after the first are passed on as they are. *)
Theorem parseConfigLockFilePathFromError_replaces_first_slash :
  forall (res : IGitResult) (before after : list string) (head rest : string),
    __WIN32__ = true ->
    free_of "/" head = true ->
    lines (coerceToString (stderr res))
    = before ++ lock_line (head +:+ "/" +:+ rest) :: after ->
    Forall (fun l => forall other, other <> "" -> l <> lock_line other) before ->
    parseConfigLockFilePathFromError res
    = Some (Path_resolve (path res) (head +:+ "\" +:+ rest +:+ ".lock")).
Proof.
  intros res before after head rest Hwin32 Hhead Hlines Hbefore.
  rewrite (parseConfigLockFilePathFromError_first_lock_line res before after
             (head +:+ "/" +:+ rest)); [| | exact Hlines | exact Hbefore].
  - rewrite Hwin32.
    change (head +:+ "/" +:+ rest) with (head +:+ String "/" rest).
    rewrite (replace_first_app "/" "\" head rest Hhead).
    change (String "\" rest) with ("\" +:+ rest).
    rewrite !append_assoc. reflexivity.
  - intros Hempty. apply (f_equal String.length) in Hempty.
    rewrite !length_append in Hempty.
    change (String.length "/") with 1 in Hempty.
    change (String.length "") with 0 in Hempty. lia.
Qed.

End MoreLockFileProperties.


(** ** The commit a result names *)

Lemma split_nonempty (sep : ascii) (s : string) : split sep s <> [].
Proof.
  destruct s as [| c s]; cbn [split]; [discriminate |].
  destruct (Ascii.eqb c sep); [discriminate |].
  destruct (split sep s); discriminate.
Qed.

(** A text without the separator joins the first piece of what
    follows. *)
Lemma split_free_app (sep : ascii) (w s : string) :
  free_of sep w = true ->
  split sep (w +:+ s)
  = (w +:+ hd "" (split sep s)) :: tail (split sep s).
Proof.
  induction w as [| c w IH]; intros Hfree.
  - change ("" +:+ s) with s.
    destruct (split sep s) as [| piece more] eqn:Hs;
      [exfalso; exact (split_nonempty sep s Hs) | reflexivity].
  - cbn [free_of] in Hfree. apply andb_true_iff in Hfree as [Hc Hfree].
    apply negb_true_iff in Hc.
    rewrite append_cons. cbn [split]. rewrite Hc, (IH Hfree). reflexivity.
Qed.

Lemma split_free (sep : ascii) (w : string) :
  free_of sep w = true -> split sep w = [w].
Proof.
  intros Hfree. rewrite <- (append_empty w) at 1.
  rewrite (split_free_app sep w "" Hfree). cbn. rewrite append_empty.
  reflexivity.
Qed.

(** The first piece of a text that is empty or starts with a
    separator is empty. *)
Lemma split_hd_separator (sep : ascii) (s : string) :
  starts_with_any [sep] s = true -> hd "" (split sep s) = "".
Proof.
  destruct s as [| c s]; [reflexivity |]. cbn [starts_with_any].
  rewrite bool_decide_eq_true, list_elem_of_singleton. intros ->.
  cbn [split]. rewrite Ascii.eqb_refl. reflexivity.
Qed.

(** The text before the first [']'] of a text that starts with a space
    or with [']'] is empty or starts with a space. *)
Lemma split_hd_bracket (rest : string) :
  starts_with_any [" "; "]"]%char rest = true ->
  starts_with_any [" "%char] (hd "" (split "]" rest)) = true.
Proof.
  destruct rest as [| c rest]; [reflexivity |]. cbn [starts_with_any].
  rewrite bool_decide_eq_true. intros Hc.
  apply elem_of_cons in Hc as [-> | Hc].
  - cbn [split]. change (Ascii.eqb " " "]") with false. cbn.
    destruct (split "]" rest); reflexivity.
  - apply list_elem_of_singleton in Hc as ->.
    cbn [split]. rewrite Ascii.eqb_refl. reflexivity.
Qed.

(** X17: parseCommitSHA yields the second of the words, separated by
    single spaces, that stand before the first closing bracket of
    stdout: the abbreviated SHA in '[main 1a2b3c4] message'. What follows
    the bracket plays no part. *)
Theorem parseCommitSHA_second_word :
  forall (res : IGitResult) (first second rest : string),
    stdout res = Str (first +:+ " " +:+ second +:+ rest) ->
    word first = true ->
    word second = true ->
    starts_with_any [" "; "]"]%char rest = true ->
    parseCommitSHA res = Some second.
Proof.
  intros res first second rest Hstdout Hfirst Hsecond Htail.
  unfold word in Hfirst, Hsecond.
  apply andb_true_iff in Hfirst as [Hfirst_space Hfirst_bracket].
  apply andb_true_iff in Hsecond as [Hsecond_space Hsecond_bracket].
  unfold parseCommitSHA. rewrite Hstdout.
  assert (Hfree : free_of "]" (first +:+ " " +:+ second) = true).
  { rewrite !free_of_app, Hfirst_bracket, Hsecond_bracket. reflexivity. }
  replace (first +:+ " " +:+ second +:+ rest)
    with ((first +:+ " " +:+ second) +:+ rest)
    by (rewrite !append_assoc; reflexivity).
  rewrite (split_free_app "]" _ rest Hfree). cbn [lookup list_lookup mbind option_bind].
  pose proof (split_hd_bracket rest Htail) as Hpiece.
  rewrite !append_assoc.
  rewrite (split_free_app " " first _ Hfirst_space).
  change (" " +:+ second +:+ hd "" (split "]" rest))
    with (String " " (second +:+ hd "" (split "]" rest))).
  cbn [split]. rewrite Ascii.eqb_refl. cbn [hd List.tail lookup list_lookup].
  rewrite (split_free_app " " second _ Hsecond_space).
  cbn [lookup list_lookup].
  rewrite (split_hd_separator " " _ Hpiece), append_empty. reflexivity.
Qed.

(** X18: when no space stands before the first closing bracket of stdout,
    or stdout has neither, parseCommitSHA yields undefined, not a
    string. *)
Theorem parseCommitSHA_undefined_without_space :
  forall (res : IGitResult) (first rest : string),
    stdout res = Str (first +:+ rest) ->
    word first = true ->
    starts_with_any ["]"%char] rest = true ->
    parseCommitSHA res = None.
Proof.
  intros res first rest Hstdout Hfirst Htail.
  unfold word in Hfirst.
  apply andb_true_iff in Hfirst as [Hfirst_space Hfirst_bracket].
  unfold parseCommitSHA. rewrite Hstdout.
  rewrite (split_free_app "]" first rest Hfirst_bracket).
  cbn [lookup list_lookup mbind option_bind].
  rewrite (split_hd_separator "]" rest Htail), append_empty.
  rewrite (split_free " " first Hfirst_space). reflexivity.
Qed.


(** ** The component [BranchSelect] *)

Section BranchSelectProperties.

Import BranchSelect.

Context `{Models}.

Lemma clicked_cons (action : Action) (more : list Action) :
  clicked (action :: more)
  = match action with
    | ItemClicked chosen _ => chosen :: clicked more
    | _ => clicked more
    end.
Proof. destruct action; reflexivity. Qed.

Lemma typed_cons (action : Action) (more : list Action) :
  typed (action :: more)
  = match action with
    | FilterTextChanged text => text :: typed more
    | _ => typed more
    end.
Proof. destruct action; reflexivity. Qed.

Lemma clicks_cons (action : Action) (more : list Action) :
  clicks (action :: more)
  = match action with
    | ItemClicked _ source => source :: clicks more
    | _ => clicks more
    end.
Proof. destruct action; reflexivity. Qed.

(** The state after a series of actions. *)
Lemma run_state (this : Component) (actions : list Action) :
  state (fst (run this actions))
  = {| selectedBranch :=
         match last (clicked actions) with
         | Some chosen => Some chosen
         | None => selectedBranch (state this)
         end;
       filterText := default (filterText (state this)) (last (typed actions)) |}.
Proof.
  revert this. induction actions as [| action more IH]; intros this.
  - destruct this as [p [selected text] r]. reflexivity.
  - cbn [run]. destruct (step this action) as [next effects] eqn:Hstep.
    specialize (IH next). destruct (run next more) as [final later].
    cbn [fst] in *. rewrite IH, clicked_cons, typed_cons.
    destruct action as [chosen source | text | received | current];
      cbn in Hstep; injection Hstep as <- <-;
      cbn [state setState onItemClick onFilterTextChanged fst selectedBranch
             filterText];
      try reflexivity.
    + rewrite last_cons. destruct (last (clicked more)); reflexivity.
    + rewrite last_cons. destruct (last (typed more)); reflexivity.
Qed.

(** X19: the dropdown shows the name of the branch clicked last, or,
    before any click, of the branch the props held when the component was
    built, or nothing when that was null; the list is given the same
    selection and the filter text typed last. Neither typing into the
    filter nor later props change the selection, and no click clears the
    filter. *)
Theorem BranchSelect_shows_last_choice :
  forall (initial : IBranchSelectProps) (actions : list Action),
    buttonContent (render (fst (run (new_BranchSelect initial) actions)))
    = match last (clicked actions) with
      | Some chosen => name chosen
      | None => match branch initial with
                | Some given => name given
                | None => ""
                end
      end
    /\ list_selectedBranch (render (fst (run (new_BranchSelect initial) actions)))
       = match last (clicked actions) with
         | Some chosen => Some chosen
         | None => branch initial
         end
    /\ list_filterText (render (fst (run (new_BranchSelect initial) actions)))
       = default "" (last (typed actions)).
Proof.
  intros initial actions.
  cbn [render buttonContent list_selectedBranch list_filterText].
  rewrite run_state. cbn [selectedBranch filterText new_BranchSelect state].
  destruct (last (clicked actions)); repeat split.
Qed.

Lemma run_effects (this : Component) (actions : list Action) :
  forallb keeps_props actions = true ->
  calls (snd (run this actions))
  = match onChange (props this) with
    | Some handler => map (pair handler) (clicked actions)
    | None => []
    end
  /\ prevented (snd (run this actions)) = clicks actions
  /\ props (fst (run this actions)) = props this.
Proof.
  revert this. induction actions as [| action more IH]; intros this Hkeeps.
  - cbn. destruct (onChange (props this)); repeat split.
  - cbn [forallb] in Hkeeps. apply andb_true_iff in Hkeeps as [Haction Hmore].
    cbn [run]. destruct (step this action) as [next effects] eqn:Hstep.
    specialize (IH next Hmore). destruct (run next more) as [final later].
    cbn [fst snd] in *. destruct IH as (Hcalls & Hprevented & Hprops).
    unfold calls, prevented in *. rewrite !omap_app, Hcalls, Hprevented, Hprops.
    destruct action as [chosen source | text | received | current];
      [| | discriminate Haction |];
      cbn in Hstep; injection Hstep as <- <-;
      cbn [props setState onItemClick onFilterTextChanged];
      rewrite ?clicked_cons, ?clicks_cons;
      destruct (onChange (props this)); destruct (popoverRef this);
      repeat split.
Qed.

(** X20: every click on a branch prevents the default of its event and,
    when the parent passed onChange, calls it once with the branch
    clicked, in the order of the clicks; without onChange nothing is
    called. (The props staying as they were at construction.) *)
Theorem BranchSelect_reports_every_choice :
  forall (initial : IBranchSelectProps) (actions : list Action),
    forallb keeps_props actions = true ->
    calls (snd (run (new_BranchSelect initial) actions))
    = match onChange initial with
      | Some handler => map (pair handler) (clicked actions)
      | None => []
      end
    /\ prevented (snd (run (new_BranchSelect initial) actions)) = clicks actions.
Proof.
  intros initial actions Hkeeps.
  destruct (run_effects (new_BranchSelect initial) actions Hkeeps)
    as (Hcalls & Hprevented & _).
  split; assumption.
Qed.

End BranchSelectProperties.

(** ** The further properties at concrete inputs *)

Example split_on_brackets :
  split "]" "[main 1a2b3c4] Close the list]"
  = ["[main 1a2b3c4"; " Close the list"; ""].
Proof. reflexivity. Qed.

Example split_of_nothing : split " " "" = [""].
Proof. reflexivity. Qed.

Example gitRebaseArguments_before_pull :
  join " " (gitRebaseArguments ++ ["pull"; "--rebase"])
  = "-c rebase.backend=merge pull --rebase".
Proof. reflexivity. Qed.

Example parseCommitSHA_of_commit :
  parseCommitSHA (Cases.committed "[main 1a2b3c4] Fix the build") = Some "1a2b3c4".
Proof. reflexivity. Qed.

(** For the first commit of a repository git prints [(root-commit)]
    before the SHA, and the second word is that. *)
Example parseCommitSHA_of_root_commit :
  parseCommitSHA (Cases.committed "[main (root-commit) 1a2b3c4] Initial commit")
  = Some "(root-commit)".
Proof. reflexivity. Qed.

Example BranchSelect_two_choices :
  @BranchSelect.run Cases.models
    (BranchSelect.new_BranchSelect Cases.on_main) Cases.two_choices
  = (@BranchSelect.Build_Component Cases.models Cases.on_main
       (@BranchSelect.Build_IBranchSelectState Cases.models (Some "topic") "")
       true,
     [ @BranchSelect.preventDefault Cases.models tt;
       @BranchSelect.closePopover Cases.models;
       @BranchSelect.called Cases.models tt "release";
       @BranchSelect.preventDefault Cases.models tt;
       @BranchSelect.closePopover Cases.models;
       @BranchSelect.called Cases.models tt "topic" ]).
Proof. reflexivity. Qed.

(** A [git status] outside a repository: stderr yields the code, and
    stdout is not read. *)
Lemma git_classifies_stderr_first_witness :
  classifier_inputs
    (trace (Sample.git (Resolves Sample.not_a_repository "") ["status"] "/repo"
                       "status" None))
  = ["fatal: not a git repository (or any of the parent directories): .git"
     +:+ Sample.nl]
  /\ forall (res : IGitResult) (e : DugiteError),
      carries (Sample.git (Resolves Sample.not_a_repository "") ["status"]
                          "/repo" "status" None) res ->
      @parseError (Sample.imports (Resolves Sample.not_a_repository ""))
        (@coerceToString (Sample.imports (Resolves Sample.not_a_repository ""))
           (dugite_stderr Sample.not_a_repository))
      = Some e ->
      gitError res = Some e.
Proof.
  refine (@git_classifies_stderr_first
            (Sample.imports (Resolves Sample.not_a_repository ""))
            ["status"] "/repo" "status" None Sample.not_a_repository ""
            eq_refl _).
  intros (codes & Hcodes & Hin). injection Hcodes as <-.
  apply elem_of_singleton in Hin. discriminate Hin.
Defined.

(** The result inside the GitError for a [git status] outside a
    repository. *)
Lemma git_result_invariant_witness :
  (exists (r : DugiteResult) (terminalOutput : string),
      @exec (Sample.imports (Resolves Sample.not_a_repository "")) ["status"]
        "/repo"
        (@spawn_options (Sample.imports (Resolves Sample.not_a_repository ""))
           "/repo" None)
      = Resolves r terminalOutput
      /\ stdout Sample.not_a_repository_result = dugite_stdout r
      /\ stderr Sample.not_a_repository_result = dugite_stderr r
      /\ exitCode Sample.not_a_repository_result = dugite_exitCode r)
  /\ path Sample.not_a_repository_result = "/repo"
  /\ (gitError Sample.not_a_repository_result <> None ->
      ~ @in_success_set (Sample.imports (Resolves Sample.not_a_repository ""))
          None (exitCode Sample.not_a_repository_result))
  /\ (gitError Sample.not_a_repository_result = None ->
      gitErrorDescription Sample.not_a_repository_result = None)
  /\ (forall e : DugiteError,
         gitError Sample.not_a_repository_result = Some e ->
         @getDescriptionForError
           (Sample.imports (Resolves Sample.not_a_repository "")) (Member e)
           (@coerceToString (Sample.imports (Resolves Sample.not_a_repository ""))
              (stderr Sample.not_a_repository_result))
         = Normal (gitErrorDescription Sample.not_a_repository_result)).
Proof.
  exact (@git_result_invariant
           (Sample.imports (Resolves Sample.not_a_repository ""))
           ["status"] "/repo" "status" None Sample.not_a_repository_result
           (or_intror (ex_intro _ Cases.not_a_repository_error
                         (conj eq_refl eq_refl)))).
Defined.

(** A caller that probes for a repository expects NotAGitRepository. *)
Lemma git_returns_expected_error_witness :
  outcome (Sample.git (Resolves Sample.not_a_repository "") ["status"] "/repo"
                      "status" (Some Cases.expecting_no_repository))
  = Normal Sample.not_a_repository_result.
Proof.
  refine (@git_returns_expected_error
            (Sample.imports (Resolves Sample.not_a_repository ""))
            ["status"] "/repo" "status" (Some Cases.expecting_no_repository)
            Sample.not_a_repository "" NotAGitRepository eq_refl _ eq_refl _).
  - intros (codes & Hcodes & Hin). injection Hcodes as <-.
    apply elem_of_singleton in Hin. discriminate Hin.
  - exists {[ NotAGitRepository ]}. split; [reflexivity |].
    apply elem_of_singleton. reflexivity.
Defined.

(** A [git status] that exits with 0, run with
    [{ successExitCodes: undefined }]: a GitError all the same. *)
Lemma git_successExitCodes_undefined_witness :
  (forall code : Z,
      ~ @in_success_set (Sample.imports (Resolves Sample.status_ok ""))
          (Some Cases.no_success_codes) code)
  /\ classifier_inputs
       (trace (Sample.git (Resolves Sample.status_ok "") ["status"] "/repo"
                          "status" (Some Cases.no_success_codes)))
     <> []
  /\ (@classified (Sample.imports (Resolves Sample.status_ok ""))
        Sample.status_ok
      = None ->
      exists e : GitError,
        outcome (Sample.git (Resolves Sample.status_ok "") ["status"] "/repo"
                            "status" (Some Cases.no_success_codes))
        = Abrupt (ThrownGitError e)
        /\ exitCode (result e) = 0%Z
        /\ gitError (result e) = None).
Proof.
  exact (@git_successExitCodes_undefined
           (Sample.imports (Resolves Sample.status_ok ""))
           ["status"] "/repo" "status" Cases.no_success_codes Sample.status_ok ""
           eq_refl eq_refl).
Defined.

(** A [git log] whose output outgrows the buffer, dugite's error having
    no cause. *)
Lemma git_max_buffer_exceeded_names_operation_witness :
  (exists c : string + ExecRejection,
      outcome (Sample.git (Rejects Cases.buffer_overflow) ["log"] "/repo"
                          "getCommits" None)
      = Abrupt (ExecError "stdout maxBuffer length exceeded for getCommits"
                  (Str "partial") (Str "") c)
      /\ (forall original : string, None = Some original -> c = inl original)
      /\ ((None : option string) = None -> c = inr Cases.buffer_overflow))
  /\ classifier_inputs
       (trace (Sample.git (Rejects Cases.buffer_overflow) ["log"] "/repo"
                          "getCommits" None))
     = [].
Proof.
  exact (@git_max_buffer_exceeded_names_operation
           (Sample.imports (Rejects Cases.buffer_overflow))
           ["log"] "/repo" "getCommits" None
           (Some "ERR_CHILD_PROCESS_STDIO_MAXBUFFER")
           "stdout maxBuffer length exceeded" (Str "partial") (Str "") None
           eq_refl eq_refl).
Defined.

(** A [git fetch] that was aborted. *)
Lemma git_rethrows_other_rejections_witness :
  outcome (Sample.git (Rejects (OtherRejection "The operation was aborted"))
                      ["fetch"] "/repo" "fetch" None)
  = Abrupt (Rethrown (OtherRejection "The operation was aborted"))
  /\ classifier_inputs
       (trace (Sample.git (Rejects (OtherRejection "The operation was aborted"))
                          ["fetch"] "/repo" "fetch" None))
     = [].
Proof.
  refine (@git_rethrows_other_rejections
            (Sample.imports (Rejects (OtherRejection "The operation was aborted")))
            ["fetch"] "/repo" "fetch" None
            (OtherRejection "The operation was aborted") eq_refl _ eq_refl).
  intros code Heq. discriminate Heq.
Defined.

(** The GitError for a [git status] outside a repository, though the
    terminal showed git's own words. *)
Lemma git_described_failure_message_witness :
  message Cases.not_a_repository_error = "这不是 Git 仓库。"
  /\ isRawMessage Cases.not_a_repository_error = false
  /\ "这不是 Git 仓库。" <> "".
Proof.
  exact (@git_described_failure_message
           (Sample.imports
              (Resolves Sample.not_a_repository "fatal: not a git repository"))
           ["status"] "/repo" "status" None Cases.not_a_repository_error
           "这不是 Git 仓库。" eq_refl eq_refl).
Defined.

(** The GitError for the locked config file. *)
Lemma git_throws_what_isGitError_tells_witness :
  (isGitError (ThrownGitError Cases.config_locked_error) None = true
   <-> exists (r : DugiteResult) (terminalOutput : string),
         @exec (Sample.imports (Resolves Cases.config_locked ""))
           ["config"; "user.name"; "Mona"] "/repo"
           (@spawn_options (Sample.imports (Resolves Cases.config_locked ""))
              "/repo" None)
         = Resolves r terminalOutput)
  /\ (forall code : DugiteError,
         isGitError (ThrownGitError Cases.config_locked_error) (Some code) = true
         <-> exists (r : DugiteResult) (terminalOutput : string),
               @exec (Sample.imports (Resolves Cases.config_locked ""))
                 ["config"; "user.name"; "Mona"] "/repo"
                 (@spawn_options (Sample.imports (Resolves Cases.config_locked ""))
                    "/repo" None)
               = Resolves r terminalOutput
               /\ @classified (Sample.imports (Resolves Cases.config_locked "")) r
                  = Some code)
  /\ isConfigFileLockError (ThrownGitError Cases.config_locked_error)
     = isGitError (ThrownGitError Cases.config_locked_error)
         (Some ConfigLockFileAlreadyExists).
Proof.
  exact (@git_throws_what_isGitError_tells
           (Sample.imports (Resolves Cases.config_locked ""))
           ["config"; "user.name"; "Mona"] "/repo" "setConfigValue" None
           (ThrownGitError Cases.config_locked_error) eq_refl).
Defined.

(** BadConfigValue with two texts in which dugite reads the same. *)
Lemma getDescriptionForError_reads_stderr_for_BadConfigValue_only_witness :
  @getDescriptionForError Sample.at_rest (Member BadConfigValue)
    "fatal: bad config value"
  = @getDescriptionForError Sample.at_rest (Member BadConfigValue)
      "fatal: bad numeric config value".
Proof.
  exact (@getDescriptionForError_reads_stderr_for_BadConfigValue_only
           Sample.at_rest BadConfigValue "fatal: bad config value"
           "fatal: bad numeric config value" (or_intror eq_refl)).
Defined.

(** SSH and HTTPS authentication failures. *)
Lemma getDescriptionForError_of_authentication_failures_witness :
  @getDescriptionForError Sample.at_rest (Member HTTPSAuthenticationFailed)
    "fatal: Authentication failed"
  = @getDescriptionForError Sample.at_rest (Member SSHAuthenticationFailed)
      "Permission denied (publickey)"
  <-> isAuthFailureError (Member HTTPSAuthenticationFailed) = true.
Proof.
  exact (@getDescriptionForError_of_authentication_failures Sample.at_rest
           SSHAuthenticationFailed HTTPSAuthenticationFailed
           "Permission denied (publickey)" "fatal: Authentication failed"
           eq_refl).
Defined.

(** The lock file of the config file of [/r], from the error thrown for
    a command run in [/repo]. *)
Lemma git_error_locates_lock_file_witness :
  @parseConfigLockFilePathFromError
    (Sample.imports (Resolves Cases.config_locked ""))
    (result Cases.config_locked_error)
  = Some "/r/.git/config.lock".
Proof.
  refine (@git_error_locates_lock_file
            (Sample.imports (Resolves Cases.config_locked ""))
            ["config"; "user.name"; "Mona"] "/repo" "setConfigValue" None
            Cases.config_locked "" Cases.config_locked_error [] [""]
            "/r/.git/config" eq_refl eq_refl _ eq_refl _).
  - discriminate.
  - constructor.
Defined.

(** The config file [C:/r/.git/config]: one backslash, two slashes. *)
Lemma parseConfigLockFilePathFromError_replaces_first_slash_witness :
  @parseConfigLockFilePathFromError Cases.windows Cases.locked_on_windows
  = Some "C:\r/.git/config.lock".
Proof.
  refine (@parseConfigLockFilePathFromError_replaces_first_slash Cases.windows
            Cases.locked_on_windows [] [""] "C:" "r/.git/config"
            eq_refl eq_refl eq_refl _).
  constructor.
Defined.

(** What git prints after a commit on [main]. *)
Lemma parseCommitSHA_second_word_witness :
  parseCommitSHA (Cases.committed "[main 1a2b3c4] Fix the build")
  = Some "1a2b3c4".
Proof.
  exact (parseCommitSHA_second_word
           (Cases.committed "[main 1a2b3c4] Fix the build")
           "[main" "1a2b3c4" "] Fix the build" eq_refl eq_refl eq_refl eq_refl).
Defined.

(** A result without output. *)
Lemma parseCommitSHA_undefined_without_space_witness :
  parseCommitSHA (Cases.committed "") = None.
Proof.
  exact (parseCommitSHA_undefined_without_space (Cases.committed "") "" ""
           eq_refl eq_refl eq_refl).
Defined.

(** Two clicks, with the filter changed in between. *)
Lemma BranchSelect_reports_every_choice_witness :
  @BranchSelect.calls Cases.models
    (snd (BranchSelect.run (BranchSelect.new_BranchSelect Cases.on_main)
            Cases.two_choices))
  = [(tt, "release"); (tt, "topic")]
  /\ @BranchSelect.prevented Cases.models
       (snd (BranchSelect.run (BranchSelect.new_BranchSelect Cases.on_main)
               Cases.two_choices))
     = [tt; tt].
Proof.
  exact (@BranchSelect_reports_every_choice Cases.models Cases.on_main
           Cases.two_choices eq_refl).
Defined.
